(** * redash-mcp-server: a shallow embedding of [src/index.js]

    The development follows the source file top-down:

    - the JavaScript values the handler manipulates (strings that may be
      [undefined], numbers that may be [NaN], parsed JSON payloads);
    - the built-ins it calls ([parseInt], [String.prototype.split],
      [startsWith], [substring], [setTimeout]);
    - [getDataHandler] with its inner loop [pollJobUntilDone], written over an
      explicit state (the clock read by [Date.now()] and the list of upstream
      HTTP calls made so far);
    - the per-session maps of the HTTP/SSE mode and the three request handlers
      that read and write them;
    - the theorems. *)

From Stdlib Require Import ZArith Lia Ascii String.
From stdpp Require Import base option list strings gmap.

Set Warnings "-register-all,-clear-no-such-hyp".

Local Open Scope string_scope.
Local Open Scope list_scope.
Local Open Scope Z_scope.

(* ===================================================================== *)
(** ** JavaScript values *)
(* ===================================================================== *)

Module JS.

(** A header value, an environment variable or an optional argument: a
    string or [undefined] ([None]). *)
Definition truthy (v : option string) : bool :=
  match v with
  | Some (String _ _) => true
  | _ => false
  end.

(** [a || b] on such values. *)
Definition or (a b : option string) : option string :=
  if truthy a then a else b.

(** The value when it is truthy: [if (!v) ... else use v]. *)
Definition pick (v : option string) : option string :=
  if truthy v then v else None.

(** [a || 'literal'] for a non-empty literal: always a string. *)
Definition or_default (a : option string) (d : string) : string :=
  default d (pick a).

(** A JavaScript number as the handler produces them: the result of
    [parseInt], possibly multiplied by an integer, hence [NaN], an infinity,
    or a double whose value is an integer ([Num z], with [z] representable:
    every number here comes out of [to_double]). *)
Inductive num : Type :=
| NaN
| Num (z : Z)
| PosInf
| NegInf.

(** The Number value for a mathematical integer: the integer itself up to
    2^53, otherwise the nearest double (53 significant bits, ties to even),
    and an infinity from 2^1024 on. *)
Definition to_double (z : Z) : num :=
  let a := Z.abs z in
  if a <? 2 ^ 53 then Num z
  else
    let e := Z.log2 a - 52 in
    let q := Z.shiftr a e in
    let r := a - Z.shiftl q e in
    let half := Z.shiftl 1 (e - 1) in
    let q' := if (half <? r) || ((r =? half) && Z.odd q) then q + 1 else q in
    let m := Z.shiftl q' e in
    if 2 ^ 1024 <=? m then (if z <? 0 then NegInf else PosInf)
    else Num (Z.sgn z * m).

(** [a * k] for an integer literal [k] *)
Definition mul (a : num) (k : Z) : num :=
  match a with
  | NaN => NaN
  | Num z => to_double (z * k)
  | PosInf => if 0 <? k then PosInf else if k <? 0 then NegInf else NaN
  | NegInf => if 0 <? k then NegInf else if k <? 0 then PosInf else NaN
  end.

(** [elapsed < limit] for an integer [elapsed]: any comparison with [NaN]
    is false, every integer is below the positive infinity and none is below
    the negative one. *)
Definition lt (elapsed : Z) (limit : num) : bool :=
  match limit with
  | NaN => false
  | Num z => elapsed <? z
  | PosInf => true
  | NegInf => false
  end.

(** *** [parseInt(string)] with no radix argument *)

(** Strings are sequences of code units below 256, which is how Node hands
    over header values; the white space [parseInt] skips in that range is
    U+0009 to U+000D, U+0020 and U+00A0.  A text with a code unit above 255
    is outside the model. *)
Definition is_white_space (c : ascii) : bool :=
  let n := nat_of_ascii c in
  ((9 <=? n)%nat && (n <=? 13)%nat) || (n =? 32)%nat || (n =? 160)%nat.

Fixpoint trimStart (s : string) : string :=
  match s with
  | String c r => if is_white_space c then trimStart r else s
  | EmptyString => s
  end.

Definition digit_value (radix : Z) (c : ascii) : option Z :=
  let n := Z.of_nat (nat_of_ascii c) in
  let v :=
    if (48 <=? n) && (n <=? 57) then Some (n - 48)
    else if (97 <=? n) && (n <=? 122) then Some (n - 87)
    else if (65 <=? n) && (n <=? 90) then Some (n - 55)
    else None in
  match v with
  | Some d => if d <? radix then Some d else None
  | None => None
  end.

(** The longest prefix of digits of the radix; [acc] is [None] until one
    digit has been read. *)
Fixpoint parse_digits (radix : Z) (s : string) (acc : option Z) : option Z :=
  match s with
  | String c r =>
      match digit_value radix c with
      | Some d => parse_digits radix r (Some (default 0 acc * radix + d))
      | None => acc
      end
  | EmptyString => acc
  end.

Definition parseInt (s : string) : num :=
  let s1 := trimStart s in
  let '(sign, s2) :=
    match s1 with
    | String "-" r => (-1, r)
    | String "+" r => (1, r)
    | _ => (1, s1)
    end in
  let '(radix, s3) :=
    match s2 with
    | String "0" (String "x" r) => (16, r)
    | String "0" (String "X" r) => (16, r)
    | _ => (10, s2)
    end in
  match parse_digits radix s3 None with
  | Some v => to_double (sign * v)
  | None => NaN
  end.

(** *** String methods used by the authorization parser *)

(** [s.split(' ')]: the pieces between successive separators, empty pieces
    included; never the empty list. *)
Fixpoint split (sep : ascii) (s : string) : list string :=
  match s with
  | EmptyString => [EmptyString]
  | String c r =>
      if Ascii.eqb c sep then EmptyString :: split sep r
      else match split sep r with
           | p :: ps => String c p :: ps
           | [] => [String c EmptyString]
           end
  end.

(** [s.startsWith(p)] *)
Fixpoint startsWith (p s : string) : bool :=
  match p, s with
  | EmptyString, _ => true
  | String a p', String b s' => Ascii.eqb a b && startsWith p' s'
  | String _ _, EmptyString => false
  end.

(** [s.substring(n)] *)
Fixpoint substring (n : nat) (s : string) : string :=
  match n, s with
  | O, _ => s
  | S n', String _ r => substring n' r
  | S _, EmptyString => EmptyString
  end.

(** *** Timers

    [setTimeout(cb, ms)] in Node.js: a delay that is [NaN], below 1 or
    above 2147483647 is replaced by 1.  The callback runs once that delay has
    passed, and possibly later. *)
Definition timer_delay (ms : num) : Z :=
  match ms with
  | Num z => if (1 <=? z) && (z <=? 2147483647) then z else 1
  | _ => 1
  end.

End JS.

(* ===================================================================== *)
(** ** Parsed JSON payloads *)
(* ===================================================================== *)

(** What [res.json()] resolves to.  Numbers are restricted to integers (the
    engine's status codes and identifiers); an object lists its own
    properties, each key once. *)
Inductive JSON : Type :=
| JNull
| JBool (b : bool)
| JNum (z : Z)
| JStr (s : string)
| JArr (items : list JSON)
| JObj (fields : list (string * JSON)).

Module Json.

Fixpoint assoc (k : string) (fields : list (string * JSON)) : option JSON :=
  match fields with
  | [] => None
  | (k', v) :: rest => if String.eqb k k' then Some v else assoc k rest
  end.

(** [v?.k] for one of the property names the handler reads
    ([query_result], [job], [id], [job_id], [status], [result],
    [query_result_id], [error]); [None] is [undefined].  Only objects carry
    such a property. *)
Definition get (v : option JSON) (k : string) : option JSON :=
  match v with
  | Some (JObj fields) => assoc k fields
  | _ => None
  end.

Definition truthy (v : option JSON) : bool :=
  match v with
  | None => false
  | Some JNull => false
  | Some (JBool b) => b
  | Some (JNum z) => negb (z =? 0)
  | Some (JStr s) => match s with EmptyString => false | _ => true end
  | Some (JArr _) => true
  | Some (JObj _) => true
  end.

(** [a || b] *)
Definition or (a b : option JSON) : option JSON :=
  if truthy a then a else b.

(** The value when it is truthy: [if (!v) ... else use v]. *)
Definition pick (v : option JSON) : option JSON :=
  if truthy v then v else None.

(** [v === n] for a number literal [n] *)
Definition is_number (v : option JSON) (n : Z) : bool :=
  match v with
  | Some (JNum z) => z =? n
  | _ => false
  end.

End Json.

Notation "v ?. k" := (Json.get v k) (at level 21, left associativity, k at level 1).

(** The values the handler reads out of the engine's payloads. *)

(** [const status = jobJson?.job?.status] *)
Definition status_of (jobJson : JSON) : option JSON :=
  Some jobJson ?. "job" ?. "status".

(** [const qrid = jobJson?.job?.result?.query_result_id || jobJson?.job?.query_result_id] *)
Definition qrid_of (jobJson : JSON) : option JSON :=
  Json.or (Some jobJson ?. "job" ?. "result" ?. "query_result_id")
          (Some jobJson ?. "job" ?. "query_result_id").

(** [const err = jobJson?.job?.error || 'Unknown Redash job failure'] *)
Definition err_of (jobJson : JSON) : JSON :=
  default (JStr "Unknown Redash job failure")
          (Json.pick (Some jobJson ?. "job" ?. "error")).

(** [const jobId = json?.job?.id || json?.job?.job_id || json?.id] *)
Definition jobId_of (json : JSON) : option JSON :=
  Json.or (Json.or (Some json ?. "job" ?. "id") (Some json ?. "job" ?. "job_id"))
          (Some json ?. "id").

(* ===================================================================== *)
(** ** The upstream engine and the handler's effects *)
(* ===================================================================== *)

(** The three [fetch] calls of the handler.  Every one carries the header
    [Authorization: 'Key ' + apiKey]; the record keeps [apiKey].
    - [SubmitCall]: [POST /api/queries/${queryIdToUse}/results] with the
      object [postBody = { parameters: { org }, max_age? }], of which the
      record keeps [org] and the handler's [maxAge] ([None]: no such key);
      what [JSON.stringify(postBody)] writes for it is [body_max_age];
    - [PollCall]: [GET /api/jobs/${encodeURIComponent(jobId)}];
    - [FetchCall]: [GET /api/query_results/${encodeURIComponent(id)}.json]. *)
Inductive Request : Type :=
| SubmitCall (queryIdToUse : string) (apiKey : string) (org : string)
             (max_age : option JS.num)
| PollCall (jobId : JSON) (apiKey : string)
| FetchCall (queryResultId : JSON) (apiKey : string).

(** The [max_age] of the serialised body: no key when [postBody] has none;
    [null] for [NaN] and the infinities, which JSON cannot write; the number
    otherwise. *)
Definition body_max_age (maxAge : option JS.num) : option JSON :=
  match maxAge with
  | None => None
  | Some (JS.Num z) => Some (JNum z)
  | Some _ => Some JNull
  end.

Definition apiKey_of (rq : Request) : string :=
  match rq with
  | SubmitCall _ k _ _ => k
  | PollCall _ k => k
  | FetchCall _ k => k
  end.

Definition is_poll (rq : Request) : bool :=
  match rq with PollCall _ _ => true | _ => false end.

Definition is_fetch (rq : Request) : bool :=
  match rq with FetchCall _ _ => true | _ => false end.

(** A [Response]: [text] is what [res.text()] resolves to, [json] what
    [res.json()] resolves to ([None] when the body does not parse and the
    promise rejects). *)
Record Response : Type := mkResponse {
  ok : bool;
  status : Z;
  statusText : string;
  text : string;
  json : option JSON
}.

(** What lies outside the handler during one invocation.
    - [answer]: the engine's answer to the [n]-th call (counting from 0),
      together with the milliseconds the call took; [None] is a [fetch]
      promise that rejects.  An [Upstream] is applied as this function.
    - [lateness]: by how many milliseconds the timer set after [n] calls
      fires after its delay. *)
Record Upstream : Type := mkUpstream {
  answer :> nat -> Request -> N * option Response;
  lateness : nat -> N
}.

(** An engine whose timers fire on time. *)
Definition punctual (f : nat -> Request -> N * option Response) : Upstream :=
  mkUpstream f (fun _ => 0%N).

(** The failures of an invocation, one constructor per [throw] of the
    handler, named after the taxonomy of the specification:
    - [MissingCredential]: 'REDASH_KEY env var or Authorization header is required'
    - [UpstreamHTTPError]: 'Failed to request Redash results: ...',
      'Failed to poll job ...', 'Failed to fetch query_results/...'
    - [UnexpectedUpstreamShape]: 'Unexpected Redash response (no query_result or job): ...'
    - [MissingResultReference]: 'Job ... completed but no query_result_id in response'
    - [UpstreamJobFailed]: 'Redash job ... failed: ...'
    - [PollTimeout]: 'Timed out waiting for Redash job ... after ...s'
    and the two rejections the built-ins raise themselves. *)
Inductive Error : Type :=
| MissingCredential
| UpstreamHTTPError (rq : Request) (status : Z) (statusText text : string)
| UnexpectedUpstreamShape (payload : JSON)
| MissingResultReference (jobId : JSON)
| UpstreamJobFailed (jobId : JSON) (err : JSON)
| PollTimeout (jobId : JSON) (timeoutMs : JS.num)
| FetchRejected (rq : Request)
| InvalidJSONBody (rq : Request).

(** [TextContent j] is [{ content: [{ type: 'text', text: JSON.stringify(j) }] }]. *)
Inductive ToolResult : Type :=
| TextContent (payload : JSON).

(** How an asynchronous computation stands: resolved, rejected, or still
    running when the loop budget of the model is used up. *)
Inductive outcome (A : Type) : Type :=
| Return (a : A)
| Throw (e : Error)
| Pending.
Arguments Return {A} a.
Arguments Throw {A} e.
Arguments Pending {A}.

(** What an invocation can observe and change: the clock behind
    [Date.now()] (milliseconds) and the upstream calls made so far. *)
Record World : Type := mkWorld {
  now : Z;
  calls : list Request
}.

(** An asynchronous computation: from a world to its outcome and the world it
    leaves. *)
Definition M (A : Type) : Type := World -> outcome A * World.

#[global] Instance M_ret : MRet M :=
  fun A a w => (Return a, w).

#[global] Instance M_bind : MBind M :=
  fun A B k m w =>
    match m w with
    | (Return a, w') => k a w'
    | (Throw e, w') => (Throw e, w')
    | (Pending, w') => (Pending, w')
    end.

Definition throw {A : Type} (e : Error) : M A :=
  fun w => (Throw e, w).

Definition out_of_fuel {A : Type} : M A :=
  fun w => (Pending, w).

Definition Date_now : M Z :=
  fun w => (Return (now w), w).

(* ===================================================================== *)
(** ** [getDataHandler] *)
(* ===================================================================== *)

Section Handler.

(** [process.env] *)
Variable env : gmap string string.
Variable upstream : Upstream.

(** [await fetch(url, options)]: the call is recorded, the clock advances by
    the time the exchange took. *)
Definition fetch (rq : Request) : M Response :=
  fun w =>
    let '(took, answer) := upstream (length (calls w)) rq in
    let w' := mkWorld (now w + Z.of_N took) (calls w ++ [rq]) in
    match answer with
    | Some res => (Return res, w')
    | None => (Throw (FetchRejected rq), w')
    end.

(** [await sleep(ms)]: the promise resolves when the timer fires, its
    (clamped) delay and its lateness after it was set. *)
Definition sleep (ms : JS.num) : M unit :=
  fun w =>
    (Return tt,
     mkWorld (now w + JS.timer_delay ms
              + Z.of_N (lateness upstream (length (calls w))))
             (calls w)).

(** [if (!res.ok) { const t = await res.text(); throw new Error(...) }] *)
Definition check_ok (rq : Request) (res : Response) : M unit :=
  if negb (ok res)
  then throw (UpstreamHTTPError rq (status res) (statusText res) (text res))
  else mret tt.

(** [await res.json()] *)
Definition res_json (rq : Request) (res : Response) : M JSON :=
  match json res with
  | Some j => mret j
  | None => throw (InvalidJSONBody rq)
  end.

(** The inner helper [pollJobUntilDone]; [apiKey], [started], [timeoutMs]
    and [pollDelayMs] are the variables of the enclosing handler it closes
    over.  [fuel] bounds the number of loop bodies the model may run. *)
Fixpoint pollJobUntilDone (apiKey : string) (started : Z)
    (timeoutMs pollDelayMs : JS.num) (fuel : nat) (jobId : JSON) : M JSON :=
  t ← Date_now;
  if JS.lt (t - started) timeoutMs then
    match fuel with
    | O => out_of_fuel
    | S fuel' =>
        let rq := PollCall jobId apiKey in
        jobRes ← fetch rq;
        _ ← check_ok rq jobRes;
        jobJson ← res_json rq jobRes;
        let status := status_of jobJson in
        if Json.is_number status 3 then
          match Json.pick (qrid_of jobJson) with
          | None => throw (MissingResultReference jobId)
          | Some qrid => mret qrid
          end
        else if Json.is_number status 4 then
          throw (UpstreamJobFailed jobId (err_of jobJson))
        else
          _ ← sleep pollDelayMs;
          pollJobUntilDone apiKey started timeoutMs pollDelayMs fuel' jobId
    end
  else throw (PollTimeout jobId timeoutMs).

(** [const timeoutMs = parseInt(timeoutSeconds || process.env.QUERY_TIMEOUT_SECONDS || '60') * 1000] *)
Definition timeoutMs_of (timeoutSeconds : option string) : JS.num :=
  JS.mul
    (JS.parseInt
       (JS.or_default (JS.or timeoutSeconds (env !! "QUERY_TIMEOUT_SECONDS")) "60"))
    1000.

(** [const pollDelayMs = parseInt(pollMs || process.env.QUERY_POLL_MS || '2000')] *)
Definition pollDelayMs_of (pollMs : option string) : JS.num :=
  JS.parseInt (JS.or_default (JS.or pollMs (env !! "QUERY_POLL_MS")) "2000").

(** [const maxAge = maxAgeSeconds ? parseInt(maxAgeSeconds) : (env ? parseInt(env) : undefined)] *)
Definition maxAge_of (maxAgeSeconds : option string) : option JS.num :=
  match JS.pick maxAgeSeconds with
  | Some s => Some (JS.parseInt s)
  | None =>
      match JS.pick (env !! "QUERY_MAX_AGE_SECONDS") with
      | Some s => Some (JS.parseInt s)
      | None => None
      end
  end.

(** [const queryIdToUse = queryId || process.env.REDASH_QUERY_ID || '35173'] *)
Definition queryIdToUse_of (queryId : option string) : string :=
  JS.or_default (JS.or queryId (env !! "REDASH_QUERY_ID")) "35173".

(** [const apiKey = redashApiKey || process.env.REDASH_KEY] *)
Definition apiKey_of_args (redashApiKey : option string) : option string :=
  JS.or redashApiKey (env !! "REDASH_KEY").

(** [async function getDataHandler({ org, redashApiKey, timeoutSeconds,
    pollMs, maxAgeSeconds, queryId })].  [max_age] enters the body whenever
    [typeof maxAge === 'number'], which [NaN] satisfies. *)
Definition getDataHandler (org : string)
    (redashApiKey timeoutSeconds pollMs maxAgeSeconds queryId : option string)
    (fuel : nat) : M ToolResult :=
  match JS.pick (apiKey_of_args redashApiKey) with
  | None => throw MissingCredential
  | Some apiKey =>
      let timeoutMs := timeoutMs_of timeoutSeconds in
      let pollDelayMs := pollDelayMs_of pollMs in
      let maxAge := maxAge_of maxAgeSeconds in
      started ← Date_now;
      let queryIdToUse := queryIdToUse_of queryId in
      let rq := SubmitCall queryIdToUse apiKey org maxAge in
      res ← fetch rq;
      _ ← check_ok rq res;
      json ← res_json rq res;
      if Json.truthy (Some json ?. "query_result") then
        mret (TextContent json)
      else
        match Json.pick (jobId_of json) with
        | None => throw (UnexpectedUpstreamShape json)
        | Some jobId =>
            queryResultId ←
              pollJobUntilDone apiKey started timeoutMs pollDelayMs fuel jobId;
            let rq := FetchCall queryResultId apiKey in
            qRes ← fetch rq;
            _ ← check_ok rq qRes;
            qJson ← res_json rq qRes;
            mret (TextContent qJson)
        end
  end.

End Handler.

(* ===================================================================== *)
(** ** HTTP/SSE mode: the per-session maps and the request handlers *)
(* ===================================================================== *)

(** The object [{ timeoutSeconds, pollMs, maxAgeSeconds }] built from the
    request headers and kept in [sessionTimeouts]. *)
Record TimeoutConfig : Type := mkTimeoutConfig {
  timeoutSeconds : option string;
  pollMs : option string;
  maxAgeSeconds : option string
}.

(** The five [Map]s of the HTTP mode.  Servers and transports are opaque
    objects of the protocol runtime; only the presence of a key matters. *)
Record Sessions : Type := mkSessions {
  sessionServers : gset string;
  sessionTransports : gset string;
  sessionApiKeys : gmap string string;
  sessionTimeouts : gmap string TimeoutConfig;
  sessionQueryIds : gmap string string
}.

Definition no_sessions : Sessions :=
  mkSessions ∅ ∅ ∅ ∅ ∅.

(** [req.headers] *)
Abbreviation Headers := (gmap string string).

(** The branch on the shape of the authorization value, written out twice in
    the source (GET /sse and POST /messages):
    [const parts = authHeader.split(' ');
     if (parts.length === 2) parts[1]
     else if (authHeader.startsWith('Key ')) authHeader.substring(4)
     else authHeader]. *)
Definition parseAuthorization (authHeader : string) : string :=
  let parts := JS.split " " authHeader in
  if (length parts =? 2)%nat then default "" (parts !! 1%nat)
  else if JS.startsWith "Key " authHeader then JS.substring 4 authHeader
  else authHeader.

(** [let redashApiKey = null; if (authHeader) { ...parse... }] with
    [authHeader = req.headers.authorization || req.headers.Authorization]. *)
Definition redashApiKey_of (headers : Headers) : option string :=
  match JS.pick (JS.or (headers !! "authorization") (headers !! "Authorization")) with
  | Some authHeader => Some (parseAuthorization authHeader)
  | None => None
  end.

Definition timeoutConfig_of (headers : Headers) : TimeoutConfig :=
  {| timeoutSeconds :=
       JS.or (headers !! "x-query-timeout-seconds") (headers !! "x-timeout-seconds");
     pollMs :=
       JS.or (headers !! "x-query-poll-ms") (headers !! "x-poll-ms");
     maxAgeSeconds :=
       JS.or (headers !! "x-query-max-age-seconds") (headers !! "x-max-age-seconds") |}.

Definition queryId_of (headers : Headers) : option string :=
  JS.or (headers !! "x-query-id") (headers !! "x-redash-query-id").

(** [timeoutConfig.timeoutSeconds || timeoutConfig.pollMs || timeoutConfig.maxAgeSeconds] *)
Definition any_timeout (c : TimeoutConfig) : bool :=
  JS.truthy (timeoutSeconds c) || JS.truthy (pollMs c) || JS.truthy (maxAgeSeconds c).

(** [if (redashApiKey) sessionApiKeys.set(sessionId, redashApiKey)] *)
Definition set_apiKey (sessionId : string) (redashApiKey : option string)
    (st : Sessions) : Sessions :=
  match JS.pick redashApiKey with
  | Some k =>
      mkSessions (sessionServers st) (sessionTransports st)
                 (<[sessionId := k]> (sessionApiKeys st))
                 (sessionTimeouts st) (sessionQueryIds st)
  | None => st
  end.

(** [if (timeoutConfig.timeoutSeconds || ...) sessionTimeouts.set(sessionId, timeoutConfig)] *)
Definition set_timeouts (sessionId : string) (timeoutConfig : TimeoutConfig)
    (st : Sessions) : Sessions :=
  if any_timeout timeoutConfig then
    mkSessions (sessionServers st) (sessionTransports st) (sessionApiKeys st)
               (<[sessionId := timeoutConfig]> (sessionTimeouts st))
               (sessionQueryIds st)
  else st.

(** [if (queryId) sessionQueryIds.set(sessionId, queryId)] *)
Definition set_queryId (sessionId : string) (queryId : option string)
    (st : Sessions) : Sessions :=
  match JS.pick queryId with
  | Some q =>
      mkSessions (sessionServers st) (sessionTransports st) (sessionApiKeys st)
                 (sessionTimeouts st) (<[sessionId := q]> (sessionQueryIds st))
  | None => st
  end.

(** [sessionServers.set(sessionId, server); sessionTransports.set(sessionId, transport)] *)
Definition set_endpoints (sessionId : string) (st : Sessions) : Sessions :=
  mkSessions ({[sessionId]} ∪ sessionServers st) ({[sessionId]} ∪ sessionTransports st)
             (sessionApiKeys st) (sessionTimeouts st) (sessionQueryIds st).

(** GET /sse: a new session under the identifier the transport generated. *)
Definition handleSse (env : gmap string string) (sessionId : string)
    (headers : Headers) (st : Sessions) : Sessions :=
  let redashApiKey := JS.or (redashApiKey_of headers) (env !! "REDASH_KEY") in
  set_endpoints sessionId
    (set_queryId sessionId (queryId_of headers)
       (set_timeouts sessionId (timeoutConfig_of headers)
          (set_apiKey sessionId redashApiKey st))).

(** The ['close'] listener of the SSE response. *)
Definition handleClose (sessionId : string) (st : Sessions) : Sessions :=
  mkSessions (sessionServers st ∖ {[sessionId]}) (sessionTransports st ∖ {[sessionId]})
             (delete sessionId (sessionApiKeys st))
             (delete sessionId (sessionTimeouts st))
             (delete sessionId (sessionQueryIds st)).

(** POST /messages?sessionId=...: the updates made before the message is
    handed to [transport.handlePostMessage]; [None] is the 400 answer
    'No transport/server found for sessionId'. *)
Definition handleMessages (sessionId : string) (headers : Headers)
    (st : Sessions) : option Sessions :=
  if bool_decide (sessionId ∈ sessionTransports st)
     && bool_decide (sessionId ∈ sessionServers st)
  then
    Some (set_queryId sessionId (queryId_of headers)
            (set_timeouts sessionId (timeoutConfig_of headers)
               (set_apiKey sessionId (redashApiKey_of headers) st)))
  else None.

(** The callback registered for [getData] on a session's server: it reads the
    maps when it is called. *)
Definition getData_callback (env : gmap string string) (upstream : Upstream)
    (st : Sessions) (sessionId : string) (org : string) (fuel : nat) : M ToolResult :=
  let apiKey := JS.or (sessionApiKeys st !! sessionId) (env !! "REDASH_KEY") in
  let timeoutConfig :=
    default (mkTimeoutConfig None None None) (sessionTimeouts st !! sessionId) in
  let queryId := sessionQueryIds st !! sessionId in
  getDataHandler env upstream org apiKey
    (timeoutSeconds timeoutConfig) (pollMs timeoutConfig)
    (maxAgeSeconds timeoutConfig) queryId fuel.

(** Stdio mode registers [getDataHandler] itself: it receives the validated
    arguments, which hold [org] only. *)
Definition getData_stdio (env : gmap string string) (upstream : Upstream)
    (org : string) (fuel : nat) : M ToolResult :=
  getDataHandler env upstream org None None None None None fuel.

(** *** The input contract

    All three registrations declare [inputSchema: { org: z.string() }].
    [z.string()] accepts exactly the values whose type is string. *)
Definition z_string (v : option JSON) : option string :=
  match v with
  | Some (JStr s) => Some s
  | _ => None
  end.

(** A [tools/call] request for [getData] with the given [arguments]: the
    protocol runtime validates them against the schema and runs the callback
    only when they pass; [None] is the invalid-arguments answer. *)
Definition call_getData (callback : string -> nat -> M ToolResult)
    (arguments : JSON) : option (nat -> M ToolResult) :=
  match z_string (Some arguments ?. "org") with
  | Some org => Some (callback org)
  | None => None
  end.

(** A POST /messages request carrying a [getData] call, start to end. *)
Inductive PostAnswer : Type :=
| NoSession
| InvalidArguments (st' : Sessions)
| Ran (st' : Sessions) (run : outcome ToolResult * World).

Definition post_getData (env : gmap string string) (upstream : Upstream)
    (sessionId : string) (headers : Headers) (arguments : JSON) (fuel : nat)
    (st : Sessions) (w : World) : PostAnswer :=
  match handleMessages sessionId headers st with
  | None => NoSession
  | Some st' =>
      match call_getData (getData_callback env upstream st' sessionId) arguments with
      | None => InvalidArguments st'
      | Some run => Ran st' (run fuel w)
      end
  end.

(* ===================================================================== *)
(** ** The resolver as the specification words it *)
(* ===================================================================== *)

Module Spec.

(** Strict precedence, highest first: the value supplied in-band with the
    current request, the value stored on the session, the process-wide
    default.  A layer that is not set is [None]. *)
Definition resolve_credential (perRequest stored processDefault : option string)
    : option string :=
  match perRequest with
  | Some c => Some c
  | None =>
      match stored with
      | Some c => Some c
      | None => processDefault
      end
  end.

End Spec.

(* ===================================================================== *)
(** ** Reading a run *)
(* ===================================================================== *)

(** The upstream calls made between two worlds of one invocation. *)
Definition calls_since (w w' : World) : list Request :=
  drop (length (calls w)) (calls w').

(** A run started in [w] has made its submit with the credential [c], and
    every call after it carries [c] too. *)
Definition submits_with (c org : string) (w : World)
    (run : outcome ToolResult * World) : Prop :=
  exists q max_age rest,
    calls run.2 = calls w ++ SubmitCall q c org max_age :: rest
    /\ Forall (fun rq => apiKey_of rq = c) rest.

Definition poll_calls (w w' : World) : nat :=
  length (List.filter is_poll (calls_since w w')).

Definition fetch_calls (w w' : World) : nat :=
  length (List.filter is_fetch (calls_since w w')).

(** One pass through the loop body that ends in [await sleep(pollDelayMs)]:
    the deadline test holds, the poll is answered 2xx with a JSON body whose
    status is neither 3 nor 4, and the timer runs. *)
Inductive waits (upstream : Upstream) (apiKey : string) (started : Z)
    (timeoutMs pollDelayMs : JS.num) (jobId : JSON) : World -> World -> Prop :=
| waits_once (w : World) (took : N) (res : Response) (jobJson : JSON) :
    JS.lt (now w - started) timeoutMs = true ->
    upstream (length (calls w)) (PollCall jobId apiKey) = (took, Some res) ->
    ok res = true ->
    json res = Some jobJson ->
    Json.is_number (status_of jobJson) 3 = false ->
    Json.is_number (status_of jobJson) 4 = false ->
    waits upstream apiKey started timeoutMs pollDelayMs jobId w
          (mkWorld (now w + Z.of_N took + JS.timer_delay pollDelayMs
                    + Z.of_N (lateness upstream
                                (length (calls w ++ [PollCall jobId apiKey]))))
                   (calls w ++ [PollCall jobId apiKey])).

(** A number of loop bodies that is enough from a world where [elapsed]
    milliseconds of the budget are used: every pass that goes on to the next
    uses at least one timer delay. *)
Definition poll_budget (timeoutMs pollDelayMs : JS.num) (elapsed : Z) : nat :=
  match timeoutMs with
  | JS.Num t =>
      let d := JS.timer_delay pollDelayMs in
      Z.to_nat ((t - elapsed + d - 1) / d)
  | _ => 0
  end.

(** Whether a string holds a space, the separator of the authorization
    value. *)
Fixpoint has_space (s : string) : bool :=
  match s with
  | EmptyString => false
  | String c r => Ascii.eqb c " " || has_space r
  end.

(* ===================================================================== *)
(** ** Engines and sessions used in the examples *)
(* ===================================================================== *)

Module Demo.

(** A 2xx answer with a JSON body. *)
Definition ok_json (j : JSON) : Response :=
  mkResponse true 200 "OK" "" (Some j).

Definition job_42 : JSON := JObj [("job", JObj [("id", JStr "42")])].
Definition queued : JSON := JObj [("job", JObj [("status", JNum 1)])].
Definition processing : JSON := JObj [("job", JObj [("status", JNum 2)])].
Definition done_99 : JSON :=
  JObj [("job", JObj [("status", JNum 3); ("query_result_id", JStr "99")])].
Definition rows : JSON := JObj [("rows", JArr [])].

(** The engine of the specification's scenario: submit answers with job 42;
    the polls answer queued, processing, then done with result 99; the result
    99 is the empty row set.  [took n] is the duration of the [n]-th call. *)
Definition scenario (took : nat -> N) : Upstream :=
  punctual (fun n rq =>
    (took n,
     match rq with
     | SubmitCall _ _ _ _ => Some (ok_json job_42)
     | PollCall _ _ =>
         match n with
         | 1%nat => Some (ok_json queued)
         | 2%nat => Some (ok_json processing)
         | _ => Some (ok_json done_99)
         end
     | FetchCall (JStr "99") _ => Some (ok_json rows)
     | FetchCall _ _ => Some (mkResponse false 404 "NOT FOUND" "" None)
     end)).

Definition instant : nat -> N := fun _ => 0%N.

(** An engine that holds every poll for five seconds and keeps the job
    queued. *)
Definition slow_engine : Upstream :=
  punctual (fun n rq =>
    match rq with
    | SubmitCall _ _ _ _ => (0%N, Some (ok_json job_42))
    | PollCall _ _ => (5000%N, Some (ok_json queued))
    | FetchCall _ _ => (0%N, None)
    end).

(** An engine that answers the submit from its cache. *)
Definition cached : JSON :=
  JObj [("query_result", JObj [("id", JNum 7); ("data", rows)])].

Definition cache_engine : Upstream :=
  punctual (fun n rq => (3%N, Some (ok_json cached))).

(** An engine whose job is done at once, with a result id that is 0. *)
Definition done_0 : JSON :=
  JObj [("job", JObj [("status", JNum 3); ("query_result_id", JNum 0)])].

Definition zero_id_engine : Upstream :=
  punctual (fun n rq =>
    match rq with
    | SubmitCall _ _ _ _ => (0%N, Some (ok_json job_42))
    | PollCall _ _ =>
        match n with
        | 1%nat => (10%N, Some (ok_json queued))
        | _ => (10%N, Some (ok_json done_0))
        end
    | FetchCall _ _ => (0%N, None)
    end).

Definition env_key : gmap string string := {["REDASH_KEY" := "env-key"]}.

Definition env_bad_timeout : gmap string string :=
  {["REDASH_KEY" := "env-key"; "QUERY_TIMEOUT_SECONDS" := "soon"]}.

Definition fresh : World := mkWorld 0 [].

(** One live session [s1] with a stored key and a stored timeout record. *)
Definition one_session : Sessions :=
  mkSessions {["s1"]} {["s1"]}
             {["s1" := "session-key"]}
             {["s1" := mkTimeoutConfig (Some "30") (Some "500") None]}
             ∅.

(** One live session [s2] with nothing stored. *)
Definition bare_session : Sessions :=
  mkSessions {["s2"]} {["s2"]} ∅ ∅ ∅.

Definition only_timeout_header : Headers :=
  {["x-query-timeout-seconds" := "10"]}.

Definition bearer_header : Headers :=
  {["authorization" := "Bearer request-key"]}.

Definition org_example : JSON := JObj [("org", JStr "example.com")].
Definition org_empty : JSON := JObj [("org", JStr "")].

End Demo.

(* ===================================================================== *)
(** ** The HTTP server, mode selection and the life of the maps *)
(* ===================================================================== *)

(** What the request listener reads of a request: [req.method], the
    [pathname] and the [sessionId] search parameter of [req.url] ([None] when
    the parameter is missing, [searchParams.get] then gives [null], which is
    the key of no session), and [req.headers]. *)
Record IncomingMessage : Type := mkIncomingMessage {
  req_method : string;
  req_pathname : string;
  req_sessionId : option string;
  req_headers : Headers
}.

(** How the listener answers:
    - [HealthOk]: 200 with [{ status: 'ok', service: 'mcp-server' }];
    - [SseConnected]: the new server is connected to its SSE transport;
    - [MessageForwarded]: the request is handed to [transport.handlePostMessage];
    - [NoTransport]: 400 with [{ error: 'No transport/server found for sessionId' }];
    - [NotFound]: 404 with [{ error: 'Not found' }]. *)
Inductive ServerAnswer : Type :=
| HealthOk
| SseConnected (sessionId : string)
| MessageForwarded (sessionId : string)
| NoTransport
| NotFound.

(** The listener given to [http.createServer]; [newSessionId] is the
    identifier the transport of a new connection generates. *)
Definition httpServer (env : gmap string string) (newSessionId : string)
    (req : IncomingMessage) (st : Sessions) : ServerAnswer * Sessions :=
  if String.eqb (req_method req) "GET" && String.eqb (req_pathname req) "/health"
  then (HealthOk, st)
  else if String.eqb (req_method req) "GET" && String.eqb (req_pathname req) "/sse"
  then (SseConnected newSessionId, handleSse env newSessionId (req_headers req) st)
  else if String.eqb (req_method req) "POST"
          && String.eqb (req_pathname req) "/messages"
  then
    match req_sessionId req with
    | Some sessionId =>
        match handleMessages sessionId (req_headers req) st with
        | Some st' => (MessageForwarded sessionId, st')
        | None => (NoTransport, st)
        end
    | None => (NoTransport, st)
    end
  else (NotFound, st).

(** [args.includes(flag)] *)
Definition includes (flag : string) (args : list string) : bool :=
  existsb (String.eqb flag) args.

(** [const httpMode = args.includes('--http') || args.includes('--server')] *)
Definition httpMode (args : list string) : bool :=
  includes "--http" args || includes "--server" args.

(** [const stdioMode = args.includes('--stdio')] *)
Definition stdioMode (args : list string) : bool :=
  includes "--stdio" args.

(** [const useHttpMode = httpMode && !stdioMode] *)
Definition useHttpMode (args : list string) : bool :=
  httpMode args && negb (stdioMode args).

(** The maps a server in HTTP mode can come to hold: empty at start, then
    changed by the requests it answers and by the connections that close. *)
Inductive reachable : Sessions -> Prop :=
| reachable_start :
    reachable no_sessions
| reachable_request (env : gmap string string) (newSessionId : string)
    (req : IncomingMessage) (st : Sessions) :
    reachable st ->
    reachable (httpServer env newSessionId req st).2
| reachable_close (sessionId : string) (st : Sessions) :
    reachable st ->
    reachable (handleClose sessionId st).

(** All that the maps hold about one session. *)
Definition session_view (st : Sessions) (sessionId : string)
    : bool * bool * option string * option TimeoutConfig * option string :=
  (bool_decide (sessionId ∈ sessionServers st),
   bool_decide (sessionId ∈ sessionTransports st),
   sessionApiKeys st !! sessionId,
   sessionTimeouts st !! sessionId,
   sessionQueryIds st !! sessionId).

Definition no_view : bool * bool * option string * option TimeoutConfig * option string :=
  (false, false, None, None, None).

(** [if (v) map.set(sessionId, v)] on one map: the shape of the three
    setters. *)
Definition put (sessionId : string) {A : Type} (v : option A) (m : gmap string A)
    : gmap string A :=
  match v with
  | Some x => <[sessionId := x]> m
  | None => m
  end.

(** What the maps keep true: a server goes with a transport; a key, a timeout
    record or a query id is held only for a session that has both; a held key
    or query id is a non-empty string and a held timeout record has a
    non-empty field. *)
Definition well_kept (st : Sessions) : Prop :=
  sessionServers st = sessionTransports st
  /\ dom (sessionApiKeys st) ⊆ sessionServers st
  /\ dom (sessionTimeouts st) ⊆ sessionServers st
  /\ dom (sessionQueryIds st) ⊆ sessionServers st
  /\ (forall sessionId k,
        sessionApiKeys st !! sessionId = Some k -> JS.truthy (Some k) = true)
  /\ (forall sessionId c,
        sessionTimeouts st !! sessionId = Some c -> any_timeout c = true)
  /\ (forall sessionId q,
        sessionQueryIds st !! sessionId = Some q -> JS.truthy (Some q) = true).

(** The query the submit of a POST /messages request goes to; the layers are
    those of [req.headers], [sessionQueryIds], [process.env.REDASH_QUERY_ID]
    and the literal of the handler. *)
Definition queryId_layers (perRequest stored processDefault : option string) : string :=
  match JS.pick perRequest with
  | Some q => q
  | None =>
      match JS.pick stored with
      | Some q => q
      | None =>
          match JS.pick processDefault with
          | Some q => q
          | None => "35173"
          end
      end
  end.

(** An invocation started in [w] has had its submit answered with the job
    [jobId] and comes, after [n] polls that left the job waiting, to the test
    of the loop in the world [wk] with time left. *)
Definition reaches_poll (env : gmap string string) (upstream : Upstream)
    (org : string)
    (redashApiKey timeoutSeconds pollMs maxAgeSeconds queryId : option string)
    (w : World) (apiKey : string) (jobId : JSON) (n : nat) (wk : World) : Prop :=
  let rq := SubmitCall (queryIdToUse_of env queryId) apiKey org
                       (maxAge_of env maxAgeSeconds) in
  let timeoutMs := timeoutMs_of env timeoutSeconds in
  let pollDelayMs := pollDelayMs_of env pollMs in
  exists took res payload,
    JS.pick (apiKey_of_args env redashApiKey) = Some apiKey
    /\ upstream (length (calls w)) rq = (took, Some res)
    /\ ok res = true
    /\ json res = Some payload
    /\ Json.truthy (Some payload ?. "query_result") = false
    /\ Json.pick (jobId_of payload) = Some jobId
    /\ nsteps (waits upstream apiKey (now w) timeoutMs pollDelayMs jobId) n
              (mkWorld (now w + Z.of_N took) (calls w ++ [rq])) wk
    /\ JS.lt (now wk - now w) timeoutMs = true.

(** Further engines and requests for the examples. *)
Module Cases.

(** The job fails at the second poll, with the error text [reason]. *)
Definition failed (reason : JSON) : JSON :=
  JObj [("job", JObj [("status", JNum 4); ("error", reason)])].

Definition failing_engine (reason : JSON) : Upstream :=
  punctual (fun n rq =>
    match rq with
    | SubmitCall _ _ _ _ => (0%N, Some (Demo.ok_json Demo.job_42))
    | PollCall _ _ =>
        match n with
        | 1%nat => (10%N, Some (Demo.ok_json Demo.queued))
        | _ => (10%N, Some (Demo.ok_json (failed reason)))
        end
    | FetchCall _ _ => (0%N, None)
    end).

(** Every call is answered 503. *)
Definition unavailable : Response :=
  mkResponse false 503 "Service Unavailable" "try later" None.

Definition down_engine : Upstream :=
  punctual (fun n rq => (1%N, Some unavailable)).

(** The submit and the first poll are answered; every later call is
    answered 503. *)
Definition flaky_engine : Upstream :=
  punctual (fun n rq =>
    match n with
    | 0%nat => (0%N, Some (Demo.ok_json Demo.job_42))
    | 1%nat => (10%N, Some (Demo.ok_json Demo.queued))
    | _ => (10%N, Some unavailable)
    end).

(** The job is done at the second poll; the result is then refused. *)
Definition refusing_engine : Upstream :=
  punctual (fun n rq =>
    match rq with
    | SubmitCall _ _ _ _ => (0%N, Some (Demo.ok_json Demo.job_42))
    | PollCall _ _ =>
        match n with
        | 1%nat => (10%N, Some (Demo.ok_json Demo.queued))
        | _ => (10%N, Some (Demo.ok_json Demo.done_99))
        end
    | FetchCall _ _ => (5%N, Some unavailable)
    end).

(** A 2xx answer that is neither a result nor a job. *)
Definition odd_payload : JSON := JObj [("message", JStr "hello")].

Definition odd_engine : Upstream :=
  punctual (fun n rq => (2%N, Some (Demo.ok_json odd_payload))).

Definition env_full : gmap string string :=
  {["REDASH_KEY" := "env-key"; "REDASH_QUERY_ID" := "777";
    "QUERY_MAX_AGE_SECONDS" := "300"]}.

Definition connect_headers : Headers :=
  {["authorization" := "Key connect-key"; "x-query-id" := "123";
    "x-query-poll-ms" := "250"]}.

Definition query_header : Headers :=
  {["x-redash-query-id" := "456"]}.

(** A text of [n] digits 9. *)
Fixpoint nines (n : nat) : string :=
  match n with
  | O => EmptyString
  | S n' => String "9" (nines n')
  end.

Definition post_message (sessionId : string) (headers : Headers) : IncomingMessage :=
  mkIncomingMessage "POST" "/messages" (Some sessionId) headers.

End Cases.

(* ===================================================================== *)
(** ** Theorems *)
(* ===================================================================== *)

(** *** The built-ins on small inputs *)

Example parseInt_60 : JS.parseInt "60" = JS.Num 60.
Proof. reflexivity. Qed.

Example parseInt_hex : JS.parseInt " 0x1F" = JS.Num 31.
Proof. reflexivity. Qed.

Example parseInt_suffix : JS.parseInt "12px" = JS.Num 12.
Proof. reflexivity. Qed.

Example parseInt_text : JS.parseInt "abc" = JS.NaN.
Proof. reflexivity. Qed.

Example parseInt_nbsp :
  JS.parseInt (String (ascii_of_nat 160) "7") = JS.Num 7.
Proof. reflexivity. Qed.

Example to_double_rounds :
  JS.to_double (2 ^ 53 + 1) = JS.Num (2 ^ 53)
  /\ JS.to_double (2 ^ 53 + 3) = JS.Num (2 ^ 53 + 4)
  /\ JS.to_double (- (2 ^ 53 + 1)) = JS.Num (- 2 ^ 53)
  /\ JS.to_double (2 ^ 1024 - 2 ^ 970 - 1) = JS.Num (2 ^ 1024 - 2 ^ 971)
  /\ JS.to_double (2 ^ 1024 - 2 ^ 970) = JS.PosInf.
Proof. by vm_compute. Qed.

Example parseInt_overflows :
  JS.parseInt (Cases.nines 308) = JS.to_double (10 ^ 308)
  /\ JS.mul (JS.parseInt (Cases.nines 308)) 1000 = JS.PosInf
  /\ JS.parseInt (Cases.nines 309) = JS.PosInf.
Proof. by vm_compute. Qed.

Example split_two : JS.split " " "Key abc" = ["Key"; "abc"].
Proof. reflexivity. Qed.

Example split_gap : JS.split " " "a  b" = ["a"; ""; "b"].
Proof. reflexivity. Qed.

Lemma calls_since_app (w : World) (now' : Z) (l : list Request) :
  calls_since w (mkWorld now' (calls w ++ l)) = l.
Proof. unfold calls_since; simpl. by rewrite drop_app_length. Qed.

(** *** Running a computation step by step *)

Lemma bind_run {A B : Type} (m : M A) (k : A -> M B) (w : World) :
  (m ≫= k) w =
  match m w with
  | (Return a, w') => k a w'
  | (Throw e, w') => (Throw e, w')
  | (Pending, w') => (Pending, w')
  end.
Proof. reflexivity. Qed.

Lemma fetch_run (upstream : Upstream) (rq : Request) (w : World)
    (took : N) (answer : option Response) :
  upstream (length (calls w)) rq = (took, answer) ->
  fetch upstream rq w =
  (match answer with
   | Some res => Return res
   | None => Throw (FetchRejected rq)
   end,
   mkWorld (now w + Z.of_N took) (calls w ++ [rq])).
Proof. intros H. unfold fetch. rewrite H. by destruct answer. Qed.

Lemma check_ok_true (rq : Request) (res : Response) (w : World) :
  ok res = true -> check_ok rq res w = (Return tt, w).
Proof. intros H. unfold check_ok. by rewrite H. Qed.

Lemma res_json_some (rq : Request) (res : Response) (j : JSON) (w : World) :
  json res = Some j -> res_json rq res w = (Return j, w).
Proof. intros H. unfold res_json. by rewrite H. Qed.

(** One upstream exchange that answers 2xx with a JSON body. *)
Ltac exchange Hup Hok Hjson :=
  rewrite bind_run, (fetch_run _ _ _ _ _ Hup);
  rewrite bind_run, (check_ok_true _ _ _ Hok);
  rewrite bind_run, (res_json_some _ _ _ _ Hjson).

(** *** Arithmetic of the loop budget *)

Lemma timer_delay_pos (ms : JS.num) : 1 <= JS.timer_delay ms.
Proof.
  destruct ms as [|z| |]; cbn; try lia.
  destruct (1 <=? z) eqn:E1; destruct (z <=? 2147483647) eqn:E2; cbn; lia.
Qed.

Lemma timer_delay_in_range (z : Z) :
  1 <= z <= 2147483647 -> JS.timer_delay (JS.Num z) = z.
Proof.
  intros [H1 H2]. cbn.
  destruct (1 <=? z) eqn:E1; destruct (z <=? 2147483647) eqn:E2; cbn; lia.
Qed.

Lemma budget_pos (t d e : Z) :
  1 <= d -> e < t -> (1 <= Z.to_nat ((t - e + d - 1) / d))%nat.
Proof.
  intros Hd He.
  replace (t - e + d - 1) with ((t - e - 1) + 1 * d) by lia.
  rewrite Z.div_add by lia.
  pose proof (Z.div_pos (t - e - 1) d). lia.
Qed.

Lemma budget_step (t d e took : Z) :
  1 <= d -> e < t -> 0 <= took ->
  (Z.to_nat ((t - (e + took + d) + d - 1) / d) + 1
   <= Z.to_nat ((t - e + d - 1) / d))%nat.
Proof.
  intros Hd He Htook.
  replace (t - e + d - 1) with ((t - e - 1) + 1 * d) by lia.
  rewrite Z.div_add by lia.
  replace (t - (e + took + d) + d - 1) with (t - e - 1 - took) by lia.
  pose proof (Z.div_pos (t - e - 1) d).
  pose proof (Z.div_le_mono (t - e - 1 - took) (t - e - 1) d).
  lia.
Qed.

Lemma poll_calls_replicate (w w' : World) (k : nat) (jobId : JSON) (apiKey : string) :
  calls w' = calls w ++ replicate k (PollCall jobId apiKey) ->
  poll_calls w w' = k /\ fetch_calls w w' = 0%nat.
Proof.
  intros H. unfold poll_calls, fetch_calls, calls_since.
  rewrite H, drop_app_length. clear H.
  induction k as [|k [IH1 IH2]]; [done|].
  cbn. split; [by f_equal | done].
Qed.

(** *** The poll loop, one pass at a time *)

Section PollFacts.

Variable upstream : Upstream.
Variables (apiKey : string) (started : Z) (timeoutMs pollDelayMs : JS.num).
Variable jobId : JSON.

Local Abbreviation loop := (pollJobUntilDone upstream apiKey started timeoutMs pollDelayMs).
Local Abbreviation poll := (PollCall jobId apiKey).

Lemma poll_expired (fuel : nat) (w : World) :
  JS.lt (now w - started) timeoutMs = false ->
  loop fuel jobId w = (Throw (PollTimeout jobId timeoutMs), w).
Proof.
  intros Hlt. destruct fuel; cbn [pollJobUntilDone];
    rewrite bind_run; cbn [Date_now]; by rewrite Hlt.
Qed.

Lemma poll_pending (w : World) :
  JS.lt (now w - started) timeoutMs = true ->
  loop 0%nat jobId w = (Pending, w).
Proof.
  intros Hlt. cbn [pollJobUntilDone]. rewrite bind_run. cbn [Date_now].
  by rewrite Hlt.
Qed.

Lemma poll_body (fuel : nat) (w : World) (took : N) (answer : option Response) :
  JS.lt (now w - started) timeoutMs = true ->
  upstream (length (calls w)) poll = (took, answer) ->
  loop (S fuel) jobId w =
  let w1 := mkWorld (now w + Z.of_N took) (calls w ++ [poll]) in
  match answer with
  | None => (Throw (FetchRejected poll), w1)
  | Some res =>
      if ok res then
        match json res with
        | None => (Throw (InvalidJSONBody poll), w1)
        | Some jobJson =>
            if Json.is_number (status_of jobJson) 3 then
              match Json.pick (qrid_of jobJson) with
              | None => (Throw (MissingResultReference jobId), w1)
              | Some qrid => (Return qrid, w1)
              end
            else if Json.is_number (status_of jobJson) 4 then
              (Throw (UpstreamJobFailed jobId (err_of jobJson)), w1)
            else
              loop fuel jobId
                   (mkWorld (now w + Z.of_N took + JS.timer_delay pollDelayMs
                             + Z.of_N (lateness upstream (length (calls w ++ [poll]))))
                            (calls w ++ [poll]))
        end
      else
        (Throw (UpstreamHTTPError poll (status res) (statusText res) (text res)), w1)
  end.
Proof.
  intros Hlt Hup. cbn [pollJobUntilDone]. rewrite bind_run. cbn [Date_now].
  rewrite Hlt, bind_run, (fetch_run _ _ _ _ _ Hup).
  destruct answer as [res|]; [|reflexivity].
  rewrite bind_run. unfold check_ok. destruct (ok res); [|reflexivity].
  cbn [negb mret M_ret]. rewrite bind_run. unfold res_json.
  destruct (json res) as [jobJson|]; [|reflexivity].
  cbn [mret M_ret].
  destruct (Json.is_number (status_of jobJson) 3).
  { by destruct (Json.pick (qrid_of jobJson)). }
  destruct (Json.is_number (status_of jobJson) 4); [reflexivity|].
  rewrite bind_run. reflexivity.
Qed.

Lemma waits_loop (fuel : nat) (w w' : World) :
  waits upstream apiKey started timeoutMs pollDelayMs jobId w w' ->
  loop (S fuel) jobId w = loop fuel jobId w'.
Proof.
  intros [w0 took res jobJson Hlt Hup Hok Hjson H3 H4].
  rewrite (poll_body _ _ _ _ Hlt Hup). cbn zeta.
  by rewrite Hok, Hjson, H3, H4.
Qed.

Lemma nsteps_waits_loop (n fuel : nat) (w w' : World) :
  nsteps (waits upstream apiKey started timeoutMs pollDelayMs jobId) n w w' ->
  loop (n + fuel)%nat jobId w = loop fuel jobId w'.
Proof.
  induction 1 as [|n w1 w2 w3 Hstep _ IH]; [reflexivity|].
  cbn [Nat.add]. by rewrite (waits_loop _ _ _ Hstep).
Qed.

Lemma nsteps_waits_calls (n : nat) (w w' : World) :
  nsteps (waits upstream apiKey started timeoutMs pollDelayMs jobId) n w w' ->
  calls w' = calls w ++ replicate n poll.
Proof.
  induction 1 as [|n w1 w2 w3 Hstep _ IH]; [by rewrite app_nil_r|].
  rewrite IH. destruct Hstep. cbn [calls replicate]. by rewrite <- app_assoc.
Qed.

Lemma poll_done_with_id (fuel : nat) (w : World) (took : N) (res : Response)
    (jobJson qrid : JSON) :
  JS.lt (now w - started) timeoutMs = true ->
  upstream (length (calls w)) poll = (took, Some res) ->
  ok res = true ->
  json res = Some jobJson ->
  Json.is_number (status_of jobJson) 3 = true ->
  Json.pick (qrid_of jobJson) = Some qrid ->
  loop (S fuel) jobId w =
  (Return qrid, mkWorld (now w + Z.of_N took) (calls w ++ [poll])).
Proof.
  intros Hlt Hup Hok Hjson H3 Hid.
  rewrite (poll_body _ _ _ _ Hlt Hup). cbn zeta. by rewrite Hok, Hjson, H3, Hid.
Qed.

Lemma poll_done_without_id (fuel : nat) (w : World) (took : N) (res : Response)
    (jobJson : JSON) :
  JS.lt (now w - started) timeoutMs = true ->
  upstream (length (calls w)) poll = (took, Some res) ->
  ok res = true ->
  json res = Some jobJson ->
  Json.is_number (status_of jobJson) 3 = true ->
  Json.truthy (Some jobJson ?. "job" ?. "result" ?. "query_result_id") = false ->
  Json.truthy (Some jobJson ?. "job" ?. "query_result_id") = false ->
  loop (S fuel) jobId w =
  (Throw (MissingResultReference jobId),
   mkWorld (now w + Z.of_N took) (calls w ++ [poll])).
Proof.
  intros Hlt Hup Hok Hjson H3 Ha Hb.
  rewrite (poll_body _ _ _ _ Hlt Hup). cbn zeta. rewrite Hok, Hjson, H3.
  unfold qrid_of, Json.pick, Json.or. by rewrite Ha, Hb.
Qed.

End PollFacts.

Lemma poll_loop_inv (upstream : Upstream) (apiKey : string) (started : Z)
    (timeoutMs pollDelayMs : JS.num) (jobId : JSON)
    (L J : Z) (fuel : nat) (w : World) :
  (forall n, Z.of_N (fst (upstream n (PollCall jobId apiKey))) <= L) ->
  (forall n, Z.of_N (lateness upstream n) <= J) ->
  timeoutMs <> JS.PosInf ->
  (poll_budget timeoutMs pollDelayMs (now w - started) <= fuel)%nat ->
  exists o w' k,
    pollJobUntilDone upstream apiKey started timeoutMs pollDelayMs fuel jobId w = (o, w')
    /\ o <> Pending
    /\ calls w' = calls w ++ replicate k (PollCall jobId apiKey)
    /\ (k <= poll_budget timeoutMs pollDelayMs (now w - started))%nat
    /\ (w' = w
        \/ exists t, timeoutMs = JS.Num t
                     /\ now w' - started < t + L + JS.timer_delay pollDelayMs + J).
Proof.
  intros HL HJ Hfin. revert w.
  pose proof (timer_delay_pos pollDelayMs) as Hd.
  assert (HJ0 : 0 <= J) by (specialize (HJ 0%nat); lia).
  induction fuel as [|fuel IH]; intros w Hfuel.
  all: destruct (JS.lt (now w - started) timeoutMs) eqn:Hlt;
    [| exists (Throw (PollTimeout jobId timeoutMs)), w, 0%nat;
       rewrite (poll_expired _ _ _ _ _ _ _ _ Hlt), app_nil_r;
       split_and!; [done | done | done | lia | by left] ].
  all: destruct timeoutMs as [|t| |] eqn:Ht; [discriminate | | done | discriminate].
  all: cbn [JS.lt] in Hlt; apply Z.ltb_lt in Hlt.
  all: cbn [poll_budget] in *.
  all: pose proof (budget_pos t _ _ Hd Hlt) as Hpos.
  { lia. }
  destruct (upstream (length (calls w)) (PollCall jobId apiKey))
    as [took answer] eqn:Hup.
  assert (Htook : Z.of_N took <= L).
  { specialize (HL (length (calls w))). by rewrite Hup in HL. }
  assert (Hlt' : JS.lt (now w - started) (JS.Num t) = true)
    by (by apply Z.ltb_lt).
  rewrite (poll_body _ _ _ _ _ _ fuel w took answer Hlt' Hup). cbn zeta.
  set (w1 := mkWorld (now w + Z.of_N took) (calls w ++ [PollCall jobId apiKey])).
  assert (Hstop : forall o : outcome JSON, o <> Pending ->
            exists o' w' k,
              (o, w1) = (o', w') /\ o' <> Pending
              /\ calls w' = calls w ++ replicate k (PollCall jobId apiKey)
              /\ (k <= Z.to_nat ((t - (now w - started) + JS.timer_delay pollDelayMs - 1)
                                 / JS.timer_delay pollDelayMs))%nat
              /\ (w' = w \/ exists t', JS.Num t = JS.Num t'
                       /\ now w' - started < t' + L + JS.timer_delay pollDelayMs + J)).
  { intros o Ho. exists o, w1, 1%nat. split_and!; [done | done | done | lia |].
    right. exists t. split; [done|]. cbn. lia. }
  destruct answer as [res|]; [|by apply Hstop].
  destruct (ok res); [|by apply Hstop].
  destruct (json res) as [jobJson|]; [|by apply Hstop].
  destruct (Json.is_number (status_of jobJson) 3).
  { destruct (Json.pick (qrid_of jobJson)); by apply Hstop. }
  destruct (Json.is_number (status_of jobJson) 4); [by apply Hstop|].
  clear Hstop.
  set (late := lateness upstream (length (calls w ++ [PollCall jobId apiKey]))).
  assert (Hlate : Z.of_N late <= J) by apply HJ.
  set (w2 := mkWorld (now w + Z.of_N took + JS.timer_delay pollDelayMs + Z.of_N late)
                     (calls w ++ [PollCall jobId apiKey])).
  pose proof (budget_step t _ (now w - started) (Z.of_N took + Z.of_N late)
                Hd Hlt ltac:(lia)) as Hstep.
  assert (He2 : now w2 - started
                = now w - started + (Z.of_N took + Z.of_N late)
                  + JS.timer_delay pollDelayMs) by (cbn; lia).
  destruct (IH w2) as (o & w' & k & Hrun & Ho & Hcalls & Hk & Htime).
  { rewrite He2. lia. }
  rewrite He2 in Hk. cbn [calls w2] in Hcalls.
  exists o, w', (S k). split_and!; [done | done | | lia |].
  - rewrite Hcalls, <- app_assoc. reflexivity.
  - right. destruct Htime as [->|Htime]; [|done].
    exists t. split; [done|]. rewrite He2. lia.
Qed.

(** C3 (amended).  If the time budget is not infinite, every poll call takes
    at most [L] milliseconds and every timer fires at most [J] milliseconds
    late, the poll loop stops in every case (result, upstream failure or
    timeout; never [Pending] once the budget of loop bodies is granted), after
    at most [poll_budget] polls, and it stops either at once, the time budget
    being already used up on entry, or less than [timeoutMs + L + delay + J]
    after [started], where [delay] is the poll interval as the timer applies
    it. *)
Theorem poll_loop_terminates_by_deadline (upstream : Upstream) (apiKey : string)
    (started : Z) (timeoutMs pollDelayMs : JS.num) (jobId : JSON)
    (L J : Z) (fuel : nat) (w : World) :
  (forall n, Z.of_N (fst (upstream n (PollCall jobId apiKey))) <= L) ->
  (forall n, Z.of_N (lateness upstream n) <= J) ->
  timeoutMs <> JS.PosInf ->
  (poll_budget timeoutMs pollDelayMs (now w - started) <= fuel)%nat ->
  exists o w',
    pollJobUntilDone upstream apiKey started timeoutMs pollDelayMs fuel jobId w = (o, w')
    /\ o <> Pending
    /\ (poll_calls w w' <= poll_budget timeoutMs pollDelayMs (now w - started))%nat
    /\ (w' = w
        \/ exists t, timeoutMs = JS.Num t
                     /\ now w' - started < t + L + JS.timer_delay pollDelayMs + J).
Proof.
  intros HL HJ Hfin Hfuel.
  destruct (poll_loop_inv _ _ _ _ _ _ L J fuel w HL HJ Hfin Hfuel)
    as (o & w' & k & Hrun & Ho & Hcalls & Hk & Htime).
  exists o, w'. split_and!; [done | done | | done].
  destruct (poll_calls_replicate w w' k jobId apiKey Hcalls) as [-> _]. done.
Qed.

(** *** What every run of the loop and of the handler does *)

Lemma poll_loop_trace (upstream : Upstream) (apiKey : string) (started : Z)
    (timeoutMs pollDelayMs : JS.num) (jobId : JSON) (fuel : nat) (w : World) :
  exists o w' k,
    pollJobUntilDone upstream apiKey started timeoutMs pollDelayMs fuel jobId w = (o, w')
    /\ calls w' = calls w ++ replicate k (PollCall jobId apiKey)
    /\ o <> Throw MissingCredential.
Proof.
  revert w. induction fuel as [|fuel IH]; intros w.
  all: destruct (JS.lt (now w - started) timeoutMs) eqn:Hlt;
    [| exists (Throw (PollTimeout jobId timeoutMs)), w, 0%nat;
       rewrite (poll_expired _ _ _ _ _ _ _ _ Hlt), app_nil_r; by split_and! ].
  { exists Pending, w, 0%nat.
    rewrite (poll_pending _ _ _ _ _ _ _ Hlt), app_nil_r. by split_and!. }
  destruct (upstream (length (calls w)) (PollCall jobId apiKey))
    as [took answer] eqn:Hup.
  rewrite (poll_body _ _ _ _ _ _ fuel w took answer Hlt Hup). cbn zeta.
  assert (Hstop : forall (o : outcome JSON) (t : Z), o <> Throw MissingCredential ->
            exists o' w' k,
              (o, mkWorld t (calls w ++ [PollCall jobId apiKey])) = (o', w')
              /\ calls w' = calls w ++ replicate k (PollCall jobId apiKey)
              /\ o' <> Throw MissingCredential).
  { intros o t Ho. eexists o, _, 1%nat. by split_and!. }
  destruct answer as [res|]; [|by apply Hstop].
  destruct (ok res); [|by apply Hstop].
  destruct (json res) as [jobJson|]; [|by apply Hstop].
  destruct (Json.is_number (status_of jobJson) 3).
  { destruct (Json.pick (qrid_of jobJson)); by apply Hstop. }
  destruct (Json.is_number (status_of jobJson) 4); [by apply Hstop|].
  destruct (IH (mkWorld (now w + Z.of_N took + JS.timer_delay pollDelayMs
                         + Z.of_N (lateness upstream
                                     (length (calls w ++ [PollCall jobId apiKey]))))
                        (calls w ++ [PollCall jobId apiKey])))
    as (o & w' & k & Hrun & Hcalls & Ho).
  exists o, w', (S k). split_and!; [done | | done].
  rewrite Hcalls. cbn [calls]. by rewrite <- app_assoc.
Qed.

Lemma pick_or (a b : option string) :
  JS.pick (JS.or a b) = match JS.pick a with Some x => Some x | None => JS.pick b end.
Proof. by destruct a as [[|c r]|]. Qed.

Lemma pick_pick (a : option string) (x : string) :
  JS.pick a = Some x -> a = Some x /\ JS.pick (Some x) = Some x.
Proof.
  unfold JS.pick. destruct (JS.truthy a) eqn:E; [|done].
  intros ->. by rewrite E.
Qed.

Section HandlerFacts.

Variable env : gmap string string.
Variable upstream : Upstream.

(** C4.  When the submit response is a 2xx answer whose JSON body holds a
    truthy [query_result], [getDataHandler] returns that body at once: the
    submit call is the only upstream call of the invocation, with zero
    job-status polls and zero result fetches, whatever the loop budget. *)
Theorem immediate_result_skips_polling
    (org : string) (redashApiKey timeoutSeconds pollMs maxAgeSeconds queryId : option string)
    (fuel : nat) (w : World) (apiKey : string) (took : N) (res : Response)
    (payload : JSON) :
  let rq := SubmitCall (queryIdToUse_of env queryId) apiKey org
                       (maxAge_of env maxAgeSeconds) in
  JS.pick (apiKey_of_args env redashApiKey) = Some apiKey ->
  upstream (length (calls w)) rq = (took, Some res) ->
  ok res = true ->
  json res = Some payload ->
  Json.truthy (Some payload ?. "query_result") = true ->
  exists w',
    getDataHandler env upstream org redashApiKey timeoutSeconds pollMs
                   maxAgeSeconds queryId fuel w
    = (Return (TextContent payload), w')
    /\ calls_since w w' = [rq]
    /\ poll_calls w w' = 0%nat
    /\ fetch_calls w w' = 0%nat.
Proof.
  intros rq Hkey Hup Hok Hjson Hqr.
  eexists. split.
  - unfold getDataHandler. rewrite Hkey. fold rq.
    rewrite bind_run. cbn [Date_now].
    exchange Hup Hok Hjson.
    rewrite Hqr. reflexivity.
  - unfold poll_calls, fetch_calls. rewrite calls_since_app. by cbn.
Qed.

Lemma getDataHandler_missing
    (org : string) (redashApiKey timeoutSeconds pollMs maxAgeSeconds queryId : option string)
    (fuel : nat) (w : World) :
  JS.pick (apiKey_of_args env redashApiKey) = None ->
  getDataHandler env upstream org redashApiKey timeoutSeconds pollMs
                 maxAgeSeconds queryId fuel w
  = (Throw MissingCredential, w).
Proof. intros H. unfold getDataHandler. by rewrite H. Qed.

Lemma getDataHandler_trace
    (org : string) (redashApiKey timeoutSeconds pollMs maxAgeSeconds queryId : option string)
    (fuel : nat) (w : World) (apiKey : string) :
  JS.pick (apiKey_of_args env redashApiKey) = Some apiKey ->
  exists o w' rest,
    getDataHandler env upstream org redashApiKey timeoutSeconds pollMs
                   maxAgeSeconds queryId fuel w = (o, w')
    /\ calls w' = calls w ++ SubmitCall (queryIdToUse_of env queryId) apiKey org
                                        (maxAge_of env maxAgeSeconds) :: rest
    /\ Forall (fun rq => apiKey_of rq = apiKey) rest
    /\ o <> Throw MissingCredential.
Proof.
  intros Hkey. unfold getDataHandler. rewrite Hkey.
  set (rq := SubmitCall _ _ _ _).
  rewrite bind_run. cbn [Date_now].
  destruct (upstream (length (calls w)) rq) as [took answer] eqn:Hup.
  rewrite bind_run, (fetch_run _ _ _ _ _ Hup).
  destruct answer as [res|]; [|by eexists _, _, []; split_and!].
  rewrite bind_run. unfold check_ok.
  destruct (ok res); [|by eexists _, _, []; split_and!].
  cbn [negb mret M_ret]. rewrite bind_run. unfold res_json.
  destruct (json res) as [payload|]; [|by eexists _, _, []; split_and!].
  cbn [mret M_ret].
  destruct (Json.truthy (Some payload ?. "query_result"));
    [by eexists _, _, []; split_and!|].
  destruct (Json.pick (jobId_of payload)) as [jobId|];
    [|by eexists _, _, []; split_and!].
  rewrite bind_run.
  destruct (poll_loop_trace upstream apiKey (now w) (timeoutMs_of env timeoutSeconds)
              (pollDelayMs_of env pollMs) jobId fuel
              (mkWorld (now w + Z.of_N took) (calls w ++ [rq])))
    as (o & w1 & k & Hrun & Hcalls & Ho).
  rewrite Hrun. cbn [calls] in Hcalls.
  assert (Hpolls : Forall (fun r => apiKey_of r = apiKey)
                          (replicate k (PollCall jobId apiKey))).
  { clear. induction k; constructor; done. }
  destruct o as [qrid|e|].
  2: exists (Throw e), w1, (replicate k (PollCall jobId apiKey));
     split_and!; [done | by rewrite Hcalls, <- app_assoc | done
                 | by intros [= ->]; apply Ho].
  2: exists Pending, w1, (replicate k (PollCall jobId apiKey));
     split_and!; [done | by rewrite Hcalls, <- app_assoc | done | done].
  destruct (upstream (length (calls w1)) (FetchCall qrid apiKey))
    as [took' answer'] eqn:Hup'.
  rewrite bind_run, (fetch_run _ _ _ _ _ Hup').
  assert (Hend : forall (o : outcome ToolResult) (t : Z),
            o <> Throw MissingCredential ->
            exists o' w' rest,
              (o, mkWorld t (calls w1 ++ [FetchCall qrid apiKey])) = (o', w')
              /\ calls w' = calls w ++ rq :: rest
              /\ Forall (fun r => apiKey_of r = apiKey) rest
              /\ o' <> Throw MissingCredential).
  { intros o t Ho'.
    eexists o, _, (replicate k (PollCall jobId apiKey) ++ [FetchCall qrid apiKey]).
    split_and!; [done | | | done].
    - cbn [calls]. rewrite Hcalls, <- !app_assoc. done.
    - apply Forall_app. split; [done|]. by constructor. }
  destruct answer' as [qRes|]; [|by apply Hend].
  rewrite bind_run. destruct (ok qRes); [|by apply Hend].
  cbn [negb mret M_ret]. rewrite bind_run.
  destruct (json qRes) as [qJson|]; by apply Hend.
Qed.

(** The handler once the submit has answered with a job: the loop, then the
    fetch of the result it names. *)
Lemma getDataHandler_job
    (org : string) (redashApiKey timeoutSeconds pollMs maxAgeSeconds queryId : option string)
    (fuel : nat) (w : World) (apiKey : string) (took : N) (res : Response)
    (payload jobId : JSON) :
  let rq := SubmitCall (queryIdToUse_of env queryId) apiKey org
                       (maxAge_of env maxAgeSeconds) in
  JS.pick (apiKey_of_args env redashApiKey) = Some apiKey ->
  upstream (length (calls w)) rq = (took, Some res) ->
  ok res = true ->
  json res = Some payload ->
  Json.truthy (Some payload ?. "query_result") = false ->
  Json.pick (jobId_of payload) = Some jobId ->
  getDataHandler env upstream org redashApiKey timeoutSeconds pollMs
                 maxAgeSeconds queryId fuel w
  = match pollJobUntilDone upstream apiKey (now w) (timeoutMs_of env timeoutSeconds)
                           (pollDelayMs_of env pollMs) fuel jobId
                           (mkWorld (now w + Z.of_N took) (calls w ++ [rq])) with
    | (Return queryResultId, w2) =>
        let rq2 := FetchCall queryResultId apiKey in
        (qRes ← fetch upstream rq2;
         _ ← check_ok rq2 qRes;
         qJson ← res_json rq2 qRes;
         mret (TextContent qJson)) w2
    | (Throw e, w2) => (Throw e, w2)
    | (Pending, w2) => (Pending, w2)
    end.
Proof.
  intros rq Hkey Hup Hok Hjson Hqr Hjob.
  unfold getDataHandler. rewrite Hkey. fold rq.
  rewrite bind_run. cbn [Date_now].
  exchange Hup Hok Hjson.
  by rewrite Hqr, Hjob, bind_run.
Qed.

Lemma fetch_result_run (apiKey : string) (queryResultId : JSON) (w : World)
    (took : N) (qRes : Response) (qJson : JSON) :
  let rq := FetchCall queryResultId apiKey in
  upstream (length (calls w)) rq = (took, Some qRes) ->
  ok qRes = true ->
  json qRes = Some qJson ->
  (qRes ← fetch upstream rq;
   _ ← check_ok rq qRes;
   qJson ← res_json rq qRes;
   mret (TextContent qJson)) w
  = (Return (TextContent qJson), mkWorld (now w + Z.of_N took) (calls w ++ [rq])).
Proof.
  intros rq Hup Hok Hjson. exchange Hup Hok Hjson. reflexivity.
Qed.

(** C10.  When the resolved timeout-seconds text
    ([timeoutSeconds || process.env.QUERY_TIMEOUT_SECONDS || '60']) is not
    numeric, so that [parseInt] yields [NaN], the time budget is [NaN], the
    loop condition is false on its first test, and an invocation whose submit
    response names a job fails with [PollTimeout] after the submit call alone:
    zero polls, zero fetches, no rejection of the configuration. *)
Theorem nan_timeout_is_immediate_poll_timeout
    (org : string) (redashApiKey timeoutSeconds pollMs maxAgeSeconds queryId : option string)
    (fuel : nat) (w : World) (apiKey : string) (took : N) (res : Response)
    (payload jobId : JSON) :
  let rq := SubmitCall (queryIdToUse_of env queryId) apiKey org
                       (maxAge_of env maxAgeSeconds) in
  JS.pick (apiKey_of_args env redashApiKey) = Some apiKey ->
  JS.parseInt
    (JS.or_default (JS.or timeoutSeconds (env !! "QUERY_TIMEOUT_SECONDS")) "60")
  = JS.NaN ->
  upstream (length (calls w)) rq = (took, Some res) ->
  ok res = true ->
  json res = Some payload ->
  Json.truthy (Some payload ?. "query_result") = false ->
  Json.pick (jobId_of payload) = Some jobId ->
  exists w',
    getDataHandler env upstream org redashApiKey timeoutSeconds pollMs
                   maxAgeSeconds queryId fuel w
    = (Throw (PollTimeout jobId JS.NaN), w')
    /\ timeoutMs_of env timeoutSeconds = JS.NaN
    /\ calls_since w w' = [rq]
    /\ poll_calls w w' = 0%nat
    /\ fetch_calls w w' = 0%nat.
Proof.
  intros rq Hkey Hnan Hup Hok Hjson Hqr Hjob.
  assert (Ht : timeoutMs_of env timeoutSeconds = JS.NaN).
  { unfold timeoutMs_of. by rewrite Hnan. }
  eexists. split.
  - unfold getDataHandler. rewrite Hkey. fold rq.
    rewrite bind_run. cbn [Date_now].
    exchange Hup Hok Hjson.
    rewrite Hqr, Hjob, bind_run, Ht.
    rewrite poll_expired by done. reflexivity.
  - unfold poll_calls, fetch_calls. rewrite calls_since_app. by cbn.
Qed.

(** C9.  When a poll answers with status 3 and the result identifier is
    falsy in both accepted places ([job.result.query_result_id] and
    [job.query_result_id]: absent, [0], the empty string, [null] or [false]),
    the invocation fails with [MissingResultReference] and fetches nothing,
    after any number [n] of earlier polls that left the job waiting. *)
Theorem done_with_falsy_result_id_is_missing_reference
    (org : string) (redashApiKey timeoutSeconds pollMs maxAgeSeconds queryId : option string)
    (n fuel : nat) (w : World) (apiKey : string) (took : N) (res : Response)
    (payload jobId : JSON)
    (wk : World) (tookk : N) (resk : Response) (jobJson : JSON) :
  let rq := SubmitCall (queryIdToUse_of env queryId) apiKey org
                       (maxAge_of env maxAgeSeconds) in
  let timeoutMs := timeoutMs_of env timeoutSeconds in
  let pollDelayMs := pollDelayMs_of env pollMs in
  JS.pick (apiKey_of_args env redashApiKey) = Some apiKey ->
  upstream (length (calls w)) rq = (took, Some res) ->
  ok res = true ->
  json res = Some payload ->
  Json.truthy (Some payload ?. "query_result") = false ->
  Json.pick (jobId_of payload) = Some jobId ->
  nsteps (waits upstream apiKey (now w) timeoutMs pollDelayMs jobId) n
         (mkWorld (now w + Z.of_N took) (calls w ++ [rq])) wk ->
  JS.lt (now wk - now w) timeoutMs = true ->
  upstream (length (calls wk)) (PollCall jobId apiKey) = (tookk, Some resk) ->
  ok resk = true ->
  json resk = Some jobJson ->
  Json.is_number (status_of jobJson) 3 = true ->
  Json.truthy (Some jobJson ?. "job" ?. "result" ?. "query_result_id") = false ->
  Json.truthy (Some jobJson ?. "job" ?. "query_result_id") = false ->
  exists w',
    getDataHandler env upstream org redashApiKey timeoutSeconds pollMs
                   maxAgeSeconds queryId (n + S fuel) w
    = (Throw (MissingResultReference jobId), w')
    /\ calls w' = calls w ++ rq :: replicate (S n) (PollCall jobId apiKey)
    /\ fetch_calls w w' = 0%nat.
Proof.
  intros rq timeoutMs pollDelayMs Hkey Hup Hok Hjson Hqr Hjob Hwait Hlt
         Hupk Hokk Hjsonk H3 Ha Hb.
  pose proof (nsteps_waits_calls _ _ _ _ _ _ _ _ _ Hwait) as Hcalls.
  cbn [calls] in Hcalls.
  assert (Hfinal : calls wk ++ [PollCall jobId apiKey]
                   = calls w ++ rq :: replicate (S n) (PollCall jobId apiKey)).
  { rewrite Hcalls, <- !app_assoc. cbn [app]. do 2 f_equal.
    clear. induction n; [done|]. cbn [replicate app]. by f_equal. }
  eexists. split_and!.
  - unfold getDataHandler. rewrite Hkey. fold rq timeoutMs pollDelayMs.
    rewrite bind_run. cbn [Date_now].
    exchange Hup Hok Hjson.
    rewrite Hqr, Hjob, bind_run.
    rewrite (nsteps_waits_loop _ _ _ _ _ _ _ _ _ _ Hwait).
    rewrite (poll_done_without_id _ _ _ _ _ _ _ _ _ _ _ Hlt Hupk Hokk Hjsonk H3 Ha Hb).
    reflexivity.
  - done.
  - unfold fetch_calls, calls_since. cbn [calls]. rewrite Hfinal.
    rewrite drop_app_length. cbn [List.filter is_fetch].
    clear. induction n; [done|]. cbn [replicate List.filter is_fetch]. done.
Qed.

End HandlerFacts.

(** *** The session maps *)

Lemma handleMessages_live (sessionId : string) (headers : Headers) (st : Sessions) :
  sessionId ∈ sessionTransports st ->
  sessionId ∈ sessionServers st ->
  handleMessages sessionId headers st
  = Some (set_queryId sessionId (queryId_of headers)
            (set_timeouts sessionId (timeoutConfig_of headers)
               (set_apiKey sessionId (redashApiKey_of headers) st))).
Proof.
  intros Ht Hs. unfold handleMessages.
  by rewrite !bool_decide_eq_true_2.
Qed.

Lemma set_queryId_apiKeys (sessionId : string) (q : option string) (st : Sessions) :
  sessionApiKeys (set_queryId sessionId q st) = sessionApiKeys st.
Proof. unfold set_queryId. by destruct (JS.pick q). Qed.

Lemma set_queryId_timeouts (sessionId : string) (q : option string) (st : Sessions) :
  sessionTimeouts (set_queryId sessionId q st) = sessionTimeouts st.
Proof. unfold set_queryId. by destruct (JS.pick q). Qed.

Lemma set_timeouts_apiKeys (sessionId : string) (c : TimeoutConfig) (st : Sessions) :
  sessionApiKeys (set_timeouts sessionId c st) = sessionApiKeys st.
Proof. unfold set_timeouts. by destruct (any_timeout c). Qed.

Lemma set_apiKey_timeouts (sessionId : string) (k : option string) (st : Sessions) :
  sessionTimeouts (set_apiKey sessionId k st) = sessionTimeouts st.
Proof. unfold set_apiKey. by destruct (JS.pick k). Qed.

Lemma set_apiKey_lookup (sessionId : string) (k : option string) (st : Sessions) :
  sessionApiKeys (set_apiKey sessionId k st) !! sessionId
  = match JS.pick k with
    | Some c => Some c
    | None => sessionApiKeys st !! sessionId
    end.
Proof.
  unfold set_apiKey. destruct (JS.pick k); [|done].
  cbn. by rewrite lookup_insert_eq.
Qed.

(** A POST /messages request for a live session with a string [org] runs the
    handler, and the [apiKey] the handler settles on is the one the
    specification's precedence gives. *)
Lemma post_getData_run (env : gmap string string) (upstream : Upstream)
    (sessionId : string) (headers : Headers) (arguments : JSON) (org : string)
    (fuel : nat) (st : Sessions) (w : World) :
  sessionId ∈ sessionTransports st ->
  sessionId ∈ sessionServers st ->
  Some arguments ?. "org" = Some (JStr org) ->
  exists st' key ts pm ma q,
    post_getData env upstream sessionId headers arguments fuel st w
    = Ran st' (getDataHandler env upstream org key ts pm ma q fuel w)
    /\ JS.pick (apiKey_of_args env key)
       = Spec.resolve_credential (JS.pick (redashApiKey_of headers))
                                 (JS.pick (sessionApiKeys st !! sessionId))
                                 (JS.pick (env !! "REDASH_KEY")).
Proof.
  intros Ht Hs Horg. unfold post_getData.
  rewrite (handleMessages_live _ _ _ Ht Hs).
  unfold call_getData. rewrite Horg. cbn [z_string].
  unfold getData_callback. eexists _, _, _, _, _, _. split; [reflexivity|].
  unfold apiKey_of_args.
  rewrite set_queryId_apiKeys, set_timeouts_apiKeys, set_apiKey_lookup.
  rewrite !pick_or. unfold Spec.resolve_credential.
  destruct (JS.pick (redashApiKey_of headers)) as [c|] eqn:Hc.
  - apply pick_pick in Hc as [_ ->]. done.
  - by destruct (JS.pick (sessionApiKeys st !! sessionId)),
               (JS.pick (env !! "REDASH_KEY")).
Qed.

Lemma handler_submits_with (env : gmap string string) (upstream : Upstream)
    (org : string)
    (redashApiKey timeoutSeconds pollMs maxAgeSeconds queryId : option string)
    (fuel : nat) (w : World) (c : string) :
  JS.pick (apiKey_of_args env redashApiKey) = Some c ->
  submits_with c org w
    (getDataHandler env upstream org redashApiKey timeoutSeconds pollMs
                    maxAgeSeconds queryId fuel w)
  /\ (getDataHandler env upstream org redashApiKey timeoutSeconds pollMs
                     maxAgeSeconds queryId fuel w).1 <> Throw MissingCredential.
Proof.
  intros Hkey.
  destruct (getDataHandler_trace env upstream org redashApiKey timeoutSeconds pollMs
              maxAgeSeconds queryId fuel w c Hkey)
    as (o & w' & rest & -> & Hcalls & Hall & Ho).
  split; [|done].
  by exists (queryIdToUse_of env queryId), (maxAge_of env maxAgeSeconds), rest.
Qed.

Lemma handler_layers (env : gmap string string) (redashApiKey : option string) :
  JS.pick (apiKey_of_args env redashApiKey)
  = Spec.resolve_credential (JS.pick redashApiKey) None
                            (JS.pick (env !! "REDASH_KEY")).
Proof.
  unfold apiKey_of_args, Spec.resolve_credential. rewrite pick_or.
  by destruct (JS.pick redashApiKey).
Qed.

(** C1.  Credential resolution follows the precedence of the specification in
    every invocation of [getData], whatever the engine and the loop budget:
    - in any call of [getDataHandler], the credential handed in as
      [redashApiKey] when it is set, [REDASH_KEY] of the process otherwise;
    - in stdio mode, where the handler is the registered callback and no
      credential is handed in, [REDASH_KEY];
    - for a POST /messages request on a live session, the credential of the
      request's authorization header when it is set, else the key stored for
      the session, else [REDASH_KEY].
    Whenever these layers yield [c], the invocation makes its submit call with
    [c], and every poll and fetch call that follows carries [c]. *)
Theorem credential_precedence (env : gmap string string) (upstream : Upstream)
    (org : string) (fuel : nat) (w : World) (c : string) :
  (forall redashApiKey timeoutSeconds pollMs maxAgeSeconds queryId,
     Spec.resolve_credential (JS.pick redashApiKey) None
                             (JS.pick (env !! "REDASH_KEY")) = Some c ->
     submits_with c org w
       (getDataHandler env upstream org redashApiKey timeoutSeconds pollMs
                       maxAgeSeconds queryId fuel w))
  /\ (Spec.resolve_credential None None (JS.pick (env !! "REDASH_KEY")) = Some c ->
      submits_with c org w (getData_stdio env upstream org fuel w))
  /\ (forall sessionId headers arguments st,
       sessionId ∈ sessionTransports st ->
       sessionId ∈ sessionServers st ->
       Some arguments ?. "org" = Some (JStr org) ->
       Spec.resolve_credential (JS.pick (redashApiKey_of headers))
                               (JS.pick (sessionApiKeys st !! sessionId))
                               (JS.pick (env !! "REDASH_KEY")) = Some c ->
       exists st' run,
         post_getData env upstream sessionId headers arguments fuel st w
         = Ran st' run
         /\ submits_with c org w run).
Proof.
  split_and!.
  - intros redashApiKey ts pm ma q Hres.
    apply handler_submits_with. by rewrite handler_layers.
  - intros Hres. unfold getData_stdio.
    apply handler_submits_with. by rewrite handler_layers.
  - intros sessionId headers arguments st Ht Hs Horg Hres.
    destruct (post_getData_run env upstream _ headers _ _ fuel _ w Ht Hs Horg)
      as (st' & key & ts & pm & ma & q & -> & Hkey).
    rewrite Hres in Hkey.
    eexists _, _. split; [done|]. by apply handler_submits_with.
Qed.

(** C7.  In every invocation of [getData] the failure is [MissingCredential]
    exactly when no layer of the precedence yields a credential, and the
    invocation then stops before any upstream call, the world untouched:
    - in any call of [getDataHandler]: when neither [redashApiKey] nor
      [REDASH_KEY] is set;
    - in stdio mode: when [REDASH_KEY] is not set;
    - for a POST /messages request on a live session: when neither the
      request's authorization header, nor the session store, nor [REDASH_KEY]
      gives one. *)
Theorem missing_credential_iff_no_layer (env : gmap string string)
    (upstream : Upstream) (org : string) (fuel : nat) (w : World) :
  (forall redashApiKey timeoutSeconds pollMs maxAgeSeconds queryId,
     let run := getDataHandler env upstream org redashApiKey timeoutSeconds pollMs
                               maxAgeSeconds queryId fuel w in
     (run.1 = Throw MissingCredential
      <-> Spec.resolve_credential (JS.pick redashApiKey) None
                                  (JS.pick (env !! "REDASH_KEY")) = None)
     /\ (run.1 = Throw MissingCredential -> run.2 = w /\ calls_since w run.2 = []))
  /\ (let run := getData_stdio env upstream org fuel w in
      (run.1 = Throw MissingCredential
       <-> Spec.resolve_credential None None (JS.pick (env !! "REDASH_KEY")) = None)
      /\ (run.1 = Throw MissingCredential -> run.2 = w /\ calls_since w run.2 = []))
  /\ (forall sessionId headers arguments st,
       sessionId ∈ sessionTransports st ->
       sessionId ∈ sessionServers st ->
       Some arguments ?. "org" = Some (JStr org) ->
       exists st' run,
         post_getData env upstream sessionId headers arguments fuel st w
         = Ran st' run
         /\ (run.1 = Throw MissingCredential
             <-> Spec.resolve_credential (JS.pick (redashApiKey_of headers))
                                         (JS.pick (sessionApiKeys st !! sessionId))
                                         (JS.pick (env !! "REDASH_KEY")) = None)
         /\ (run.1 = Throw MissingCredential ->
             run.2 = w /\ calls_since w run.2 = [])).
Proof.
  assert (Hhandler : forall key ts pm ma q (layers : option string),
            JS.pick (apiKey_of_args env key) = layers ->
            let run := getDataHandler env upstream org key ts pm ma q fuel w in
            (run.1 = Throw MissingCredential <-> layers = None)
            /\ (run.1 = Throw MissingCredential ->
                run.2 = w /\ calls_since w run.2 = [])).
  { intros key ts pm ma q layers Hkey. cbn zeta. destruct layers as [c|].
    - destruct (handler_submits_with env upstream org key ts pm ma q fuel w c Hkey)
        as [_ Hne].
      split; [by split|done].
    - rewrite (getDataHandler_missing env upstream _ _ _ _ _ _ _ _ Hkey).
      cbn [fst snd]. split; [by split|]. intros _. split; [done|].
      unfold calls_since. by rewrite drop_all. }
  split_and!.
  - intros key ts pm ma q. apply Hhandler, handler_layers.
  - unfold getData_stdio. apply Hhandler, handler_layers.
  - intros sessionId headers arguments st Ht Hs Horg.
    destruct (post_getData_run env upstream _ headers _ _ fuel _ w Ht Hs Horg)
      as (st' & key & ts & pm & ma & q & -> & Hkey).
    eexists _, _. split; [done|]. by apply Hhandler.
Qed.

(** C2 (amended).  A POST /messages request that supplies at least one of the
    three timeout headers replaces the session's stored record by the record
    built from this request's headers, so a field the request does not supply
    is stored as absent; a request that supplies none leaves the stored record
    as it was; the records of the other sessions never change. *)
Theorem config_update_replaces_record (sessionId : string) (headers : Headers)
    (st st' : Sessions) :
  handleMessages sessionId headers st = Some st' ->
  sessionTimeouts st'
  = (if any_timeout (timeoutConfig_of headers)
     then <[sessionId := timeoutConfig_of headers]> (sessionTimeouts st)
     else sessionTimeouts st)
  /\ (any_timeout (timeoutConfig_of headers) = true ->
      sessionTimeouts st' !! sessionId = Some (timeoutConfig_of headers))
  /\ (any_timeout (timeoutConfig_of headers) = false ->
      sessionTimeouts st' !! sessionId = sessionTimeouts st !! sessionId)
  /\ (forall other, other <> sessionId ->
      sessionTimeouts st' !! other = sessionTimeouts st !! other).
Proof.
  unfold handleMessages.
  destruct (bool_decide _ && bool_decide _); [|done].
  intros [= <-].
  rewrite set_queryId_timeouts. unfold set_timeouts.
  destruct (any_timeout (timeoutConfig_of headers)) eqn:Hany;
    cbn [sessionTimeouts]; rewrite set_apiKey_timeouts.
  - split_and!; [done | | done |].
    + intros _. apply lookup_insert_eq.
    + intros other Hne. by apply lookup_insert_ne.
  - by split_and!.
Qed.

Lemma config_update_replaces_record_witness :
  sessionTimeouts
    (set_queryId "s1" (queryId_of Demo.only_timeout_header)
       (set_timeouts "s1" (timeoutConfig_of Demo.only_timeout_header)
          (set_apiKey "s1" (redashApiKey_of Demo.only_timeout_header)
             Demo.one_session)))
  !! "s1"
  = Some (mkTimeoutConfig (Some "10") None None).
Proof.
  refine (proj1 (proj2 (config_update_replaces_record
                          "s1" Demo.only_timeout_header Demo.one_session _ _)) _).
  - vm_compute. reflexivity.
  - vm_compute. reflexivity.
Defined.

(** C2 as stated fails: a request that carries only the timeout header
    erases the poll interval the session had stored. *)
Lemma partial_config_update_drops_stored_field :
  exists st',
    handleMessages "s1" Demo.only_timeout_header Demo.one_session = Some st'
    /\ pollMs (timeoutConfig_of Demo.only_timeout_header) = None
    /\ pollMs <$> (sessionTimeouts Demo.one_session !! "s1") = Some (Some "500")
    /\ pollMs <$> (sessionTimeouts st' !! "s1") = Some None.
Proof.
  eexists. split_and!; [by vm_compute | | |]; by vm_compute.
Qed.

(** *** The authorization value *)

Lemma split_nonempty (sep : ascii) (s : string) : JS.split sep s <> [].
Proof.
  destruct s as [|c r]; cbn; [done|].
  destruct (Ascii.eqb c sep); [done|]. by destruct (JS.split sep r).
Qed.

Lemma split_no_space (s : string) :
  has_space s = false -> JS.split " " s = [s].
Proof.
  induction s as [|c r IH]; cbn; [done|].
  destruct (Ascii.eqb c " "); cbn; [done|].
  intros H. by rewrite (IH H).
Qed.

Lemma split_single (s p : string) :
  JS.split " " s = [p] -> p = s.
Proof.
  revert p. induction s as [|c r IH]; intros p; cbn.
  - by intros [= <-].
  - destruct (Ascii.eqb c " ").
    + intros [= <- Hr]. by destruct (split_nonempty " " r).
    + destruct (JS.split " " r) as [|q qs] eqn:Hr;
        [by destruct (split_nonempty " " r)|].
      intros [= <- ->]. by rewrite (IH q).
Qed.

Lemma split_app (a b : string) :
  JS.split " " (a ++ String " " b)%string = JS.split " " a ++ JS.split " " b.
Proof.
  induction a as [|c r IH]; [done|].
  change (String c r ++ String " " b)%string
    with (String c (r ++ String " " b))%string.
  cbn [JS.split].
  destruct (Ascii.eqb c " "); [by rewrite IH|].
  rewrite IH. destruct (JS.split " " r) eqn:Hr; [|done].
  by destruct (split_nonempty " " r).
Qed.

Lemma startsWith_Key_has_space (s : string) :
  JS.startsWith "Key " s = true -> has_space s = true.
Proof.
  destruct s as [|c1 [|c2 [|c3 [|c4 r]]]]; cbn [JS.startsWith];
    rewrite ?andb_false_r; try done.
  intros H. do 3 (apply andb_prop in H as [_ H]).
  apply andb_prop in H as [H _]. apply Ascii.eqb_eq in H as <-.
  cbn. by rewrite !orb_true_r.
Qed.

(** The form 'Key ' followed by the credential gives the credential back,
    whatever the credential holds. *)
Lemma key_prefix_form (X : string) :
  parseAuthorization ("Key " ++ X)%string = X.
Proof.
  unfold parseAuthorization.
  change ("Key " ++ X)%string with ("Key" ++ String " " X)%string.
  rewrite split_app. change (JS.split " " "Key") with ["Key"].
  destruct (JS.split " " X) as [|p [|q ps]] eqn:HX.
  - by destruct (split_nonempty " " X).
  - cbn. by apply split_single.
  - reflexivity.
Qed.

(** C6 (amended).  For every credential [X] that holds no space, the three
    textual forms give [X]: a scheme word followed by [X], the prefix 'Key '
    followed by [X], and [X] alone. *)
Theorem authorization_forms_agree (scheme X : string) :
  has_space scheme = false ->
  has_space X = false ->
  parseAuthorization (scheme ++ String " " X)%string = X
  /\ parseAuthorization ("Key " ++ X)%string = X
  /\ parseAuthorization X = X.
Proof.
  intros Hs HX. split_and!.
  - unfold parseAuthorization.
    rewrite split_app, (split_no_space _ Hs), (split_no_space _ HX). done.
  - apply key_prefix_form.
  - unfold parseAuthorization. rewrite (split_no_space _ HX).
    cbn [length Nat.eqb].
    destruct (JS.startsWith "Key " X) eqn:Hk; [|done].
    apply startsWith_Key_has_space in Hk. congruence.
Qed.

Lemma authorization_forms_agree_witness :
  parseAuthorization "Bearer abc123" = "abc123"
  /\ parseAuthorization "Key abc123" = "abc123"
  /\ parseAuthorization "abc123" = "abc123".
Proof.
  apply (authorization_forms_agree "Bearer" "abc123"); reflexivity.
Defined.

(** C6 as stated fails for a credential that holds a space: the bare form is
    read as a two-token value and the scheme form is kept whole. *)
Lemma authorization_forms_disagree :
  parseAuthorization "Key a b" = "a b"
  /\ parseAuthorization "a b" = "b"
  /\ parseAuthorization "Bearer a b" = "Bearer a b".
Proof. by vm_compute. Qed.

(** *** The input contract *)

(** C8 (amended).  The input contract of [getData] requires [org] to be a
    string: a call whose [org] is absent or not a string is rejected and the
    callback never runs; a call whose [org] is any string, the empty one
    included, is handed to the callback. *)
Theorem input_contract_requires_a_string
    (callback : string -> nat -> M ToolResult) (arguments : JSON) :
  (call_getData callback arguments = None
   <-> forall s, Some arguments ?. "org" <> Some (JStr s))
  /\ (forall s, Some arguments ?. "org" = Some (JStr s) ->
      call_getData callback arguments = Some (callback s)).
Proof.
  unfold call_getData. split; [split|].
  - destruct (Some arguments ?. "org") as [[| | |s| |]|]; cbn; try done.
  - intros H. destruct (Some arguments ?. "org") as [[| | |s| |]|]; cbn; try done.
    by destruct (H s).
  - intros s ->. done.
Qed.

(** C8 as stated fails: an empty [org] passes the schema and the handler
    runs the whole exchange with it. *)
Lemma empty_org_is_executed :
  match call_getData (getData_stdio Demo.env_key (Demo.scenario Demo.instant))
                     Demo.org_empty with
  | Some run =>
      run 3%nat Demo.fresh
      = (Return (TextContent Demo.rows),
         mkWorld 4000 [SubmitCall "35173" "env-key" "" None;
                       PollCall (JStr "42") "env-key";
                       PollCall (JStr "42") "env-key";
                       PollCall (JStr "42") "env-key";
                       FetchCall (JStr "99") "env-key"])
  | None => False
  end.
Proof. vm_compute. reflexivity. Qed.

(** *** The scenario of the specification *)

(** C5 (amended).  In the scenario (submit answers job 42; the polls answer
    status 1, status 2, then status 3 with result id 99; the result 99 is
    [{rows: []}]), when the deadline is not reached before the third poll the
    invocation returns [{rows: []}] after exactly three poll calls and exactly
    one fetch call, made with id 99. *)
Theorem scenario_returns_rows_after_three_polls
    (env : gmap string string) (took : nat -> N) (org : string)
    (redashApiKey timeoutSeconds pollMs maxAgeSeconds queryId : option string)
    (fuel : nat) (w : World) (apiKey : string) (t : Z) :
  let d := JS.timer_delay (pollDelayMs_of env pollMs) in
  calls w = [] ->
  JS.pick (apiKey_of_args env redashApiKey) = Some apiKey ->
  timeoutMs_of env timeoutSeconds = JS.Num t ->
  Z.of_N (took 0%nat) + Z.of_N (took 1%nat) + d + Z.of_N (took 2%nat) + d < t ->
  exists w',
    getDataHandler env (Demo.scenario took) org redashApiKey timeoutSeconds pollMs
                   maxAgeSeconds queryId (3 + fuel) w
    = (Return (TextContent Demo.rows), w')
    /\ calls w' = [SubmitCall (queryIdToUse_of env queryId) apiKey org
                              (maxAge_of env maxAgeSeconds);
                   PollCall (JStr "42") apiKey;
                   PollCall (JStr "42") apiKey;
                   PollCall (JStr "42") apiKey;
                   FetchCall (JStr "99") apiKey]
    /\ poll_calls w w' = 3%nat
    /\ fetch_calls w w' = 1%nat.
Proof.
  intros d Hcalls Hkey Ht Hlt.
  pose proof (timer_delay_pos (pollDelayMs_of env pollMs)) as Hd. fold d in Hd.
  destruct w as [t0 cs]. cbn [calls] in Hcalls. subst cs.
  assert (Hrun :
    getDataHandler env (Demo.scenario took) org redashApiKey timeoutSeconds pollMs
                   maxAgeSeconds queryId (3 + fuel) (mkWorld t0 [])
    = (Return (TextContent Demo.rows),
       mkWorld (t0 + Z.of_N (took 0%nat) + Z.of_N (took 1%nat) + d
                + Z.of_N (took 2%nat) + d + Z.of_N (took 3%nat)
                + Z.of_N (took 4%nat))
               [SubmitCall (queryIdToUse_of env queryId) apiKey org
                           (maxAge_of env maxAgeSeconds);
                PollCall (JStr "42") apiKey;
                PollCall (JStr "42") apiKey;
                PollCall (JStr "42") apiKey;
                FetchCall (JStr "99") apiKey])).
  { erewrite getDataHandler_job;
      [| exact Hkey | reflexivity | reflexivity | reflexivity | reflexivity
       | reflexivity ].
    rewrite Ht. cbn [now calls app].
    eassert (Hwait : nsteps (waits (Demo.scenario took) apiKey t0 (JS.Num t)
                                   (pollDelayMs_of env pollMs) (JStr "42"))
                            2 (mkWorld (t0 + Z.of_N (took 0%nat)) [_]) _).
    { eapply nsteps_l;
        [ eapply (waits_once _ _ _ _ _ _ _ (took 1%nat) (Demo.ok_json Demo.queued));
          [cbn [JS.lt now lateness Demo.scenario punctual]; apply Z.ltb_lt; lia | reflexivity..] |].
      eapply nsteps_l;
        [ eapply (waits_once _ _ _ _ _ _ _ (took 2%nat) (Demo.ok_json Demo.processing));
          [cbn [JS.lt now lateness Demo.scenario punctual]; apply Z.ltb_lt; fold d; lia
          | reflexivity..] |].
      apply nsteps_O. }
    change (3 + fuel)%nat with (2 + S fuel)%nat.
    rewrite (nsteps_waits_loop _ _ _ _ _ _ _ _ _ _ Hwait).
    erewrite poll_done_with_id;
      [| cbn [JS.lt now lateness Demo.scenario punctual]; apply Z.ltb_lt; fold d; lia
       | reflexivity..].
    erewrite fetch_result_run; [| reflexivity..].
    cbn [now calls app lateness Demo.scenario punctual Z.of_N].
    rewrite !Z.add_0_r. fold d. reflexivity. }
  eexists. split; [exact Hrun|]. by split_and!.
Qed.

Lemma scenario_returns_rows_after_three_polls_witness :
  exists w',
    getDataHandler Demo.env_key (Demo.scenario Demo.instant) "example.com"
                   None None None None None (3 + 0) Demo.fresh
    = (Return (TextContent Demo.rows), w')
    /\ calls w' = [SubmitCall "35173" "env-key" "example.com" None;
                   PollCall (JStr "42") "env-key";
                   PollCall (JStr "42") "env-key";
                   PollCall (JStr "42") "env-key";
                   FetchCall (JStr "99") "env-key"]
    /\ poll_calls Demo.fresh w' = 3%nat
    /\ fetch_calls Demo.fresh w' = 1%nat.
Proof.
  apply (scenario_returns_rows_after_three_polls
           Demo.env_key Demo.instant "example.com" None None None None None
           0%nat Demo.fresh "env-key" 60000);
    [reflexivity | reflexivity | reflexivity | vm_compute; reflexivity].
Defined.

(** C5 as stated fails: the third answer of the poll endpoint is read by a
    third poll call; after two the invocation has not returned. *)
Lemma scenario_is_not_done_after_two_polls :
  exists w2 w3,
    getData_stdio Demo.env_key (Demo.scenario Demo.instant) "example.com"
                  2%nat Demo.fresh = (Pending, w2)
    /\ poll_calls Demo.fresh w2 = 2%nat
    /\ getData_stdio Demo.env_key (Demo.scenario Demo.instant) "example.com"
                     3%nat Demo.fresh = (Return (TextContent Demo.rows), w3)
    /\ poll_calls Demo.fresh w3 = 3%nat
    /\ poll_calls Demo.fresh w3 <> 2%nat.
Proof. eexists _, _. split_and!; by vm_compute. Qed.

(** *** The deadline *)

Lemma poll_loop_terminates_by_deadline_witness :
  exists o w',
    pollJobUntilDone Demo.slow_engine "env-key" 0 (JS.Num 1000) (JS.Num 100)
                     10%nat (JStr "42") Demo.fresh = (o, w')
    /\ o <> Pending
    /\ (poll_calls Demo.fresh w' <= 10)%nat
    /\ (w' = Demo.fresh
        \/ exists t, JS.Num 1000 = JS.Num t
                     /\ now w' - 0 < t + 5000 + JS.timer_delay (JS.Num 100) + 0).
Proof.
  apply (poll_loop_terminates_by_deadline
           Demo.slow_engine "env-key" 0 (JS.Num 1000) (JS.Num 100) (JStr "42")
           5000 0 10%nat Demo.fresh).
  - intros n. simpl. lia.
  - intros n. simpl. lia.
  - discriminate.
  - vm_compute. lia.
Defined.

(** C3 as stated fails: with a budget of one second and a poll interval of a
    tenth of a second, one poll that the engine holds for five seconds ends
    the loop 5.1 seconds after the invocation started. *)
Lemma slow_poll_overruns_budget_plus_interval :
  exists w',
    getDataHandler Demo.env_key Demo.slow_engine "example.com"
                   None (Some "1") (Some "100") None None 1%nat Demo.fresh
    = (Throw (PollTimeout (JStr "42") (JS.Num 1000)), w')
    /\ timeoutMs_of Demo.env_key (Some "1") = JS.Num 1000
    /\ pollDelayMs_of Demo.env_key (Some "100") = JS.Num 100
    /\ poll_calls Demo.fresh w' = 1%nat
    /\ now w' - now Demo.fresh = 5100
    /\ ~ (now w' - now Demo.fresh < 1000 + 100).
Proof. eexists. split_and!; by vm_compute. Qed.

(** *** Witnesses of the handler theorems *)

Lemma immediate_result_skips_polling_witness :
  exists w',
    getDataHandler Demo.env_key Demo.cache_engine "example.com"
                   None None None None None 0%nat Demo.fresh
    = (Return (TextContent Demo.cached), w')
    /\ calls_since Demo.fresh w'
       = [SubmitCall "35173" "env-key" "example.com" None]
    /\ poll_calls Demo.fresh w' = 0%nat
    /\ fetch_calls Demo.fresh w' = 0%nat.
Proof.
  apply (immediate_result_skips_polling
           Demo.env_key Demo.cache_engine "example.com" None None None None None
           0%nat Demo.fresh "env-key" 3%N (Demo.ok_json Demo.cached) Demo.cached);
    reflexivity.
Defined.

Lemma nan_timeout_is_immediate_poll_timeout_witness :
  exists w',
    getDataHandler Demo.env_bad_timeout (Demo.scenario Demo.instant) "example.com"
                   None None None None None 5%nat Demo.fresh
    = (Throw (PollTimeout (JStr "42") JS.NaN), w')
    /\ timeoutMs_of Demo.env_bad_timeout None = JS.NaN
    /\ calls_since Demo.fresh w'
       = [SubmitCall "35173" "env-key" "example.com" None]
    /\ poll_calls Demo.fresh w' = 0%nat
    /\ fetch_calls Demo.fresh w' = 0%nat.
Proof.
  apply (nan_timeout_is_immediate_poll_timeout
           Demo.env_bad_timeout (Demo.scenario Demo.instant) "example.com"
           None None None None None 5%nat Demo.fresh "env-key" 0%N
           (Demo.ok_json Demo.job_42) Demo.job_42 (JStr "42"));
    reflexivity.
Defined.

Lemma done_with_falsy_result_id_is_missing_reference_witness :
  exists w',
    getDataHandler Demo.env_key Demo.zero_id_engine "example.com"
                   None None None None None (1 + 1) Demo.fresh
    = (Throw (MissingResultReference (JStr "42")), w')
    /\ calls w' = [SubmitCall "35173" "env-key" "example.com" None;
                   PollCall (JStr "42") "env-key";
                   PollCall (JStr "42") "env-key"]
    /\ fetch_calls Demo.fresh w' = 0%nat.
Proof.
  apply (done_with_falsy_result_id_is_missing_reference
           Demo.env_key Demo.zero_id_engine "example.com" None None None None None
           1%nat 0%nat Demo.fresh "env-key" 0%N (Demo.ok_json Demo.job_42)
           Demo.job_42 (JStr "42")
           (mkWorld 2010 [SubmitCall "35173" "env-key" "example.com" None;
                          PollCall (JStr "42") "env-key"])
           10%N (Demo.ok_json Demo.done_0) Demo.done_0);
    try reflexivity.
  eapply nsteps_l; [|apply nsteps_O].
  apply (waits_once Demo.zero_id_engine "env-key" 0 (JS.Num 60000) (JS.Num 2000)
                    (JStr "42")
                    (mkWorld 0 [SubmitCall "35173" "env-key" "example.com" None])
                    10%N (Demo.ok_json Demo.queued) Demo.queued);
    reflexivity.
Defined.

(** *** Witnesses of the session theorems *)

Lemma credential_precedence_witness :
  submits_with "argument-key" "example.com" Demo.fresh
    (getDataHandler Demo.env_key (Demo.scenario Demo.instant) "example.com"
                    (Some "argument-key") None None None None 3%nat Demo.fresh)
  /\ submits_with "env-key" "example.com" Demo.fresh
       (getData_stdio Demo.env_key (Demo.scenario Demo.instant) "example.com"
                      3%nat Demo.fresh)
  /\ exists st' run,
       post_getData Demo.env_key (Demo.scenario Demo.instant) "s1"
                    Demo.bearer_header Demo.org_example 3%nat
                    Demo.one_session Demo.fresh
       = Ran st' run
       /\ submits_with "request-key" "example.com" Demo.fresh run.
Proof.
  split_and!.
  - apply (proj1 (credential_precedence
                    Demo.env_key (Demo.scenario Demo.instant) "example.com"
                    3%nat Demo.fresh "argument-key")).
    reflexivity.
  - apply (proj1 (proj2 (credential_precedence
                           Demo.env_key (Demo.scenario Demo.instant) "example.com"
                           3%nat Demo.fresh "env-key"))).
    reflexivity.
  - apply (proj2 (proj2 (credential_precedence
                           Demo.env_key (Demo.scenario Demo.instant) "example.com"
                           3%nat Demo.fresh "request-key"))).
    + vm_compute. reflexivity.
    + vm_compute. reflexivity.
    + reflexivity.
    + vm_compute. reflexivity.
Defined.

Lemma missing_credential_iff_no_layer_witness :
  (getData_stdio ∅ (Demo.scenario Demo.instant) "example.com" 3%nat Demo.fresh).1
  = Throw MissingCredential
  /\ (getData_stdio Demo.env_key (Demo.scenario Demo.instant) "example.com"
                    3%nat Demo.fresh).1
     <> Throw MissingCredential
  /\ exists st' run,
       post_getData ∅ (Demo.scenario Demo.instant) "s2" ∅ Demo.org_example 3%nat
                    Demo.bare_session Demo.fresh
       = Ran st' run
       /\ (run.1 = Throw MissingCredential
           <-> Spec.resolve_credential
                 (JS.pick (redashApiKey_of ∅))
                 (JS.pick (sessionApiKeys Demo.bare_session !! "s2"))
                 (JS.pick ((∅ : gmap string string) !! "REDASH_KEY")) = None)
       /\ (run.1 = Throw MissingCredential ->
           run.2 = Demo.fresh /\ calls_since Demo.fresh run.2 = []).
Proof.
  split_and!.
  - apply (proj1 (proj1 (proj2 (missing_credential_iff_no_layer
                                  ∅ (Demo.scenario Demo.instant) "example.com"
                                  3%nat Demo.fresh)))).
    reflexivity.
  - intros H.
    apply (proj1 (proj1 (proj2 (missing_credential_iff_no_layer
                                  Demo.env_key (Demo.scenario Demo.instant)
                                  "example.com" 3%nat Demo.fresh)))) in H.
    discriminate H.
  - apply (proj2 (proj2 (missing_credential_iff_no_layer
                           ∅ (Demo.scenario Demo.instant) "example.com"
                           3%nat Demo.fresh))).
    + vm_compute. reflexivity.
    + vm_compute. reflexivity.
    + reflexivity.
Defined.

(** The three layers, one at a time, on the session [s1]: the key of the
    request, the stored key once the header is gone, the environment's key
    once the session holds none. *)
Example request_key_wins :
  post_getData Demo.env_key Demo.cache_engine "s1" Demo.bearer_header
               Demo.org_example 0%nat Demo.one_session Demo.fresh
  = Ran (set_apiKey "s1" (Some "request-key") Demo.one_session)
        (Return (TextContent Demo.cached),
         mkWorld 3 [SubmitCall "35173" "request-key" "example.com" None]).
Proof. vm_compute. reflexivity. Qed.

Example session_key_next :
  post_getData Demo.env_key Demo.cache_engine "s1" ∅
               Demo.org_example 0%nat Demo.one_session Demo.fresh
  = Ran Demo.one_session
        (Return (TextContent Demo.cached),
         mkWorld 3 [SubmitCall "35173" "session-key" "example.com" None]).
Proof. vm_compute. reflexivity. Qed.

Example environment_key_last :
  post_getData Demo.env_key Demo.cache_engine "s2" ∅
               Demo.org_example 0%nat Demo.bare_session Demo.fresh
  = Ran Demo.bare_session
        (Return (TextContent Demo.cached),
         mkWorld 3 [SubmitCall "35173" "env-key" "example.com" None]).
Proof. vm_compute. reflexivity. Qed.

Example no_key_at_all :
  post_getData ∅ Demo.cache_engine "s2" ∅
               Demo.org_example 0%nat Demo.bare_session Demo.fresh
  = Ran Demo.bare_session (Throw MissingCredential, Demo.fresh).
Proof. vm_compute. reflexivity. Qed.

Example unknown_session :
  post_getData Demo.env_key Demo.cache_engine "s9" Demo.bearer_header
               Demo.org_example 0%nat Demo.one_session Demo.fresh
  = NoSession.
Proof. vm_compute. reflexivity. Qed.

Lemma input_contract_requires_a_string_witness :
  call_getData (getData_stdio Demo.env_key Demo.cache_engine) Demo.org_empty
  = Some (getData_stdio Demo.env_key Demo.cache_engine "").
Proof.
  apply (proj2 (input_contract_requires_a_string
                  (getData_stdio Demo.env_key Demo.cache_engine)
                  Demo.org_empty) "").
  reflexivity.
Defined.

(* ===================================================================== *)
(** ** Further properties of the handler *)
(* ===================================================================== *)

Lemma is_number_4_not_3 (v : option JSON) :
  Json.is_number v 4 = true -> Json.is_number v 3 = false.
Proof.
  destruct v as [[| |z| | |]|]; cbn; try done.
  intros H. apply Z.eqb_eq in H as ->. done.
Qed.

Lemma filter_polls_replicate (k : nat) (jobId : JSON) (apiKey : string)
    (rest : list Request) :
  List.filter is_poll (replicate k (PollCall jobId apiKey) ++ rest)
  = replicate k (PollCall jobId apiKey) ++ List.filter is_poll rest.
Proof. induction k as [|k IH]; [done|]. cbn. by rewrite IH. Qed.

Lemma filter_fetches_replicate (k : nat) (jobId : JSON) (apiKey : string)
    (rest : list Request) :
  List.filter is_fetch (replicate k (PollCall jobId apiKey) ++ rest)
  = List.filter is_fetch rest.
Proof. induction k as [|k IH]; [done|]. cbn. by rewrite IH. Qed.

(** Counting the calls of a run whose trace is a submit, [k] polls and the
    calls [fetched]. *)
Lemma counts_of_trace (w w' : World) (submit : Request) (k : nat)
    (jobId : JSON) (apiKey : string) (fetched : list Request) :
  is_poll submit = false ->
  is_fetch submit = false ->
  calls w' = calls w ++ submit :: replicate k (PollCall jobId apiKey) ++ fetched ->
  poll_calls w w' = (k + length (List.filter is_poll fetched))%nat
  /\ fetch_calls w w' = length (List.filter is_fetch fetched).
Proof.
  intros Hp Hf H. unfold poll_calls, fetch_calls, calls_since.
  rewrite H, drop_app_length. cbn [List.filter]. rewrite Hp, Hf.
  rewrite filter_polls_replicate, filter_fetches_replicate.
  by rewrite length_app, length_replicate.
Qed.

Lemma replicate_snoc {A : Type} (n : nat) (x : A) :
  replicate n x ++ [x] = replicate (S n) x.
Proof. induction n as [|n IH]; [done|]. cbn. by rewrite IH. Qed.

Section HandlerCases.

Variable env : gmap string string.
Variable upstream : Upstream.
Variable org : string.
Variables redashApiKey timeoutSeconds pollMs maxAgeSeconds queryId : option string.

Local Abbreviation handler :=
  (getDataHandler env upstream org redashApiKey timeoutSeconds pollMs
                  maxAgeSeconds queryId).
Local Abbreviation submit apiKey :=
  (SubmitCall (queryIdToUse_of env queryId) apiKey org (maxAge_of env maxAgeSeconds)).
Local Abbreviation reaches :=
  (reaches_poll env upstream org redashApiKey timeoutSeconds pollMs
                maxAgeSeconds queryId).

Lemma reaches_poll_calls (w : World) (apiKey : string) (jobId : JSON)
    (n : nat) (wk : World) :
  reaches w apiKey jobId n wk ->
  calls wk = calls w ++ submit apiKey :: replicate n (PollCall jobId apiKey).
Proof.
  intros (took & res & payload & _ & _ & _ & _ & _ & _ & Hwait & _).
  rewrite (nsteps_waits_calls _ _ _ _ _ _ _ _ _ Hwait). cbn [calls].
  by rewrite <- app_assoc.
Qed.

(** The handler from the world the loop has come to. *)
Lemma reaches_poll_run (w : World) (apiKey : string) (jobId : JSON)
    (n fuel : nat) (wk : World) :
  reaches w apiKey jobId n wk ->
  handler (n + fuel)%nat w
  = match pollJobUntilDone upstream apiKey (now w) (timeoutMs_of env timeoutSeconds)
                           (pollDelayMs_of env pollMs) fuel jobId wk with
    | (Return queryResultId, w2) =>
        let rq2 := FetchCall queryResultId apiKey in
        (qRes ← fetch upstream rq2;
         _ ← check_ok rq2 qRes;
         qJson ← res_json rq2 qRes;
         mret (TextContent qJson)) w2
    | (Throw e, w2) => (Throw e, w2)
    | (Pending, w2) => (Pending, w2)
    end.
Proof.
  intros (took & res & payload & Hkey & Hup & Hok & Hjson & Hqr & Hjob & Hwait & _).
  rewrite (getDataHandler_job env upstream _ _ _ _ _ _ _ _ _ _ _ _ _
             Hkey Hup Hok Hjson Hqr Hjob).
  by rewrite (nsteps_waits_loop _ _ _ _ _ _ _ _ _ _ Hwait).
Qed.

Lemma reaches_poll_time (w : World) (apiKey : string) (jobId : JSON)
    (n : nat) (wk : World) :
  reaches w apiKey jobId n wk ->
  JS.lt (now wk - now w) (timeoutMs_of env timeoutSeconds) = true.
Proof. by intros (took & res & payload & _ & _ & _ & _ & _ & _ & _ & Hlt). Qed.

(** The calls counted once the poll made in [wk] has been answered, and once
    the fetch that follows it has been. *)
Lemma after_poll_counts (w : World) (apiKey : string) (jobId : JSON)
    (n : nat) (wk : World) (t : Z) :
  reaches w apiKey jobId n wk ->
  poll_calls w (mkWorld t (calls wk ++ [PollCall jobId apiKey])) = S n
  /\ fetch_calls w (mkWorld t (calls wk ++ [PollCall jobId apiKey])) = 0%nat.
Proof.
  intros Hreach. pose proof (reaches_poll_calls _ _ _ _ _ Hreach) as Hcalls.
  destruct (counts_of_trace w (mkWorld t (calls wk ++ [PollCall jobId apiKey]))
              (submit apiKey) (S n) jobId apiKey []) as [-> ->]; [done | done | |].
  - cbn [calls]. by rewrite Hcalls, app_nil_r, <- app_assoc, <- replicate_snoc.
  - cbn. split; lia.
Qed.

Lemma after_fetch_counts (w : World) (apiKey : string) (jobId qrid : JSON)
    (n : nat) (wk : World) (t : Z) :
  reaches w apiKey jobId n wk ->
  poll_calls w (mkWorld t ((calls wk ++ [PollCall jobId apiKey])
                           ++ [FetchCall qrid apiKey])) = S n
  /\ fetch_calls w (mkWorld t ((calls wk ++ [PollCall jobId apiKey])
                              ++ [FetchCall qrid apiKey])) = 1%nat.
Proof.
  intros Hreach. pose proof (reaches_poll_calls _ _ _ _ _ Hreach) as Hcalls.
  destruct (counts_of_trace w (mkWorld t ((calls wk ++ [PollCall jobId apiKey])
                                          ++ [FetchCall qrid apiKey]))
              (submit apiKey) (S n) jobId apiKey [FetchCall qrid apiKey])
    as [-> ->]; [done | done | |].
  - cbn [calls]. rewrite Hcalls, <- !app_assoc. cbn [app].
    by rewrite <- replicate_snoc, <- app_assoc.
  - cbn. split; lia.
Qed.

(** X1.  A submit that the engine answers outside 2xx fails the invocation
    with [UpstreamHTTPError] carrying the status code, the status text and the
    body of that answer; the submit stays the only call: nothing is retried,
    polled or fetched. *)
Theorem submit_http_error_is_surfaced (fuel : nat) (w : World) (apiKey : string)
    (took : N) (res : Response) :
  JS.pick (apiKey_of_args env redashApiKey) = Some apiKey ->
  upstream (length (calls w)) (submit apiKey) = (took, Some res) ->
  ok res = false ->
  handler fuel w
  = (Throw (UpstreamHTTPError (submit apiKey) (status res) (statusText res) (text res)),
     mkWorld (now w + Z.of_N took) (calls w ++ [submit apiKey])).
Proof.
  intros Hkey Hup Hok. unfold getDataHandler. rewrite Hkey.
  rewrite bind_run. cbn [Date_now].
  rewrite bind_run, (fetch_run _ _ _ _ _ Hup).
  rewrite bind_run. unfold check_ok. by rewrite Hok.
Qed.

(** X2.  A 2xx submit answer whose JSON body holds neither a truthy
    [query_result] nor a truthy job identifier (in [job.id], [job.job_id] or
    [id]) fails the invocation with [UnexpectedUpstreamShape] carrying that
    body, after the submit call alone. *)
Theorem shapeless_submit_answer_is_surfaced (fuel : nat) (w : World)
    (apiKey : string) (took : N) (res : Response) (payload : JSON) :
  JS.pick (apiKey_of_args env redashApiKey) = Some apiKey ->
  upstream (length (calls w)) (submit apiKey) = (took, Some res) ->
  ok res = true ->
  json res = Some payload ->
  Json.truthy (Some payload ?. "query_result") = false ->
  Json.pick (jobId_of payload) = None ->
  handler fuel w
  = (Throw (UnexpectedUpstreamShape payload),
     mkWorld (now w + Z.of_N took) (calls w ++ [submit apiKey])).
Proof.
  intros Hkey Hup Hok Hjson Hqr Hjob. unfold getDataHandler. rewrite Hkey.
  rewrite bind_run. cbn [Date_now].
  exchange Hup Hok Hjson.
  by rewrite Hqr, Hjob.
Qed.

(** X3.  When a poll answers with status 4 the invocation fails with
    [UpstreamJobFailed]; the error it carries is the engine's [job.error] when
    that is truthy and the text 'Unknown Redash job failure' otherwise; no
    result is fetched. *)
Theorem failed_job_is_surfaced (n fuel : nat) (w : World) (apiKey : string)
    (jobId : JSON) (wk : World) (took : N) (res : Response) (jobJson : JSON) :
  reaches w apiKey jobId n wk ->
  upstream (length (calls wk)) (PollCall jobId apiKey) = (took, Some res) ->
  ok res = true ->
  json res = Some jobJson ->
  Json.is_number (status_of jobJson) 4 = true ->
  exists err w',
    handler (n + S fuel)%nat w = (Throw (UpstreamJobFailed jobId err), w')
    /\ match Json.pick (Some jobJson ?. "job" ?. "error") with
       | Some e => err = e
       | None => err = JStr "Unknown Redash job failure"
       end
    /\ poll_calls w w' = S n
    /\ fetch_calls w w' = 0%nat.
Proof.
  intros Hreach Hup Hok Hjson H4.
  pose proof (reaches_poll_time _ _ _ _ _ Hreach) as Hlt.
  exists (err_of jobJson). eexists. split_and!.
  - rewrite (reaches_poll_run _ _ _ _ _ _ Hreach).
    rewrite (poll_body _ _ _ _ _ _ _ _ _ _ Hlt Hup). cbn zeta.
    rewrite Hok, Hjson, (is_number_4_not_3 _ H4), H4. reflexivity.
  - unfold err_of. by destruct (Json.pick _).
  - by apply (after_poll_counts _ _ _ _ _ _ Hreach).
  - by apply (after_poll_counts _ _ _ _ _ _ Hreach).
Qed.

(** X4.  A poll that the engine answers outside 2xx fails the invocation with
    [UpstreamHTTPError] carrying that answer's status and body; the loop does
    not poll again and no result is fetched. *)
Theorem poll_http_error_is_surfaced (n fuel : nat) (w : World) (apiKey : string)
    (jobId : JSON) (wk : World) (took : N) (res : Response) :
  reaches w apiKey jobId n wk ->
  upstream (length (calls wk)) (PollCall jobId apiKey) = (took, Some res) ->
  ok res = false ->
  exists w',
    handler (n + S fuel)%nat w
    = (Throw (UpstreamHTTPError (PollCall jobId apiKey)
                                (status res) (statusText res) (text res)), w')
    /\ poll_calls w w' = S n
    /\ fetch_calls w w' = 0%nat.
Proof.
  intros Hreach Hup Hok.
  pose proof (reaches_poll_time _ _ _ _ _ Hreach) as Hlt.
  eexists. split_and!.
  - rewrite (reaches_poll_run _ _ _ _ _ _ Hreach).
    rewrite (poll_body _ _ _ _ _ _ _ _ _ _ Hlt Hup). cbn zeta.
    rewrite Hok. reflexivity.
  - by apply (after_poll_counts _ _ _ _ _ _ Hreach).
  - by apply (after_poll_counts _ _ _ _ _ _ Hreach).
Qed.

(** X5.  When, after any number of polls that left the job waiting, a poll
    answers with status 3 and a truthy result identifier, and the fetch of that
    result is answered 2xx with a JSON body, the invocation returns that body
    as it is; the result is fetched exactly once, under that identifier, and
    the fetch is the last call. *)
Theorem polled_result_is_fetched_once (n fuel : nat) (w : World) (apiKey : string)
    (jobId : JSON) (wk : World) (took : N) (res : Response) (jobJson qrid : JSON)
    (took' : N) (qRes : Response) (qJson : JSON) :
  reaches w apiKey jobId n wk ->
  upstream (length (calls wk)) (PollCall jobId apiKey) = (took, Some res) ->
  ok res = true ->
  json res = Some jobJson ->
  Json.is_number (status_of jobJson) 3 = true ->
  Json.pick (qrid_of jobJson) = Some qrid ->
  upstream (S (length (calls wk))) (FetchCall qrid apiKey) = (took', Some qRes) ->
  ok qRes = true ->
  json qRes = Some qJson ->
  exists w',
    handler (n + S fuel)%nat w = (Return (TextContent qJson), w')
    /\ calls w' = calls w ++ submit apiKey
                            :: replicate (S n) (PollCall jobId apiKey)
                            ++ [FetchCall qrid apiKey]
    /\ poll_calls w w' = S n
    /\ fetch_calls w w' = 1%nat.
Proof.
  intros Hreach Hup Hok Hjson H3 Hid Hup' Hok' Hjson'.
  pose proof (reaches_poll_calls _ _ _ _ _ Hreach) as Hcalls.
  pose proof (reaches_poll_time _ _ _ _ _ Hreach) as Hlt.
  eexists. split_and!.
  - rewrite (reaches_poll_run _ _ _ _ _ _ Hreach).
    rewrite (poll_done_with_id _ _ _ _ _ _ _ _ _ _ _ _ Hlt Hup Hok Hjson H3 Hid).
    rewrite (fetch_result_run upstream apiKey qrid _ took' qRes qJson);
      [reflexivity | | done | done].
    cbn [calls]. rewrite length_app. cbn [length].
    by rewrite Nat.add_1_r.
  - cbn [calls]. rewrite Hcalls, <- !app_assoc. cbn [app].
    by rewrite <- replicate_snoc, <- app_assoc.
  - by apply (after_fetch_counts _ _ _ _ _ _ _ Hreach).
  - by apply (after_fetch_counts _ _ _ _ _ _ _ Hreach).
Qed.

(** X6.  When the job is done but the fetch of its result is answered outside
    2xx, the invocation fails with [UpstreamHTTPError] carrying that answer's
    status and body; the fetch is made once and not repeated. *)
Theorem fetch_http_error_is_surfaced (n fuel : nat) (w : World) (apiKey : string)
    (jobId : JSON) (wk : World) (took : N) (res : Response) (jobJson qrid : JSON)
    (took' : N) (qRes : Response) :
  reaches w apiKey jobId n wk ->
  upstream (length (calls wk)) (PollCall jobId apiKey) = (took, Some res) ->
  ok res = true ->
  json res = Some jobJson ->
  Json.is_number (status_of jobJson) 3 = true ->
  Json.pick (qrid_of jobJson) = Some qrid ->
  upstream (S (length (calls wk))) (FetchCall qrid apiKey) = (took', Some qRes) ->
  ok qRes = false ->
  exists w',
    handler (n + S fuel)%nat w
    = (Throw (UpstreamHTTPError (FetchCall qrid apiKey)
                                (status qRes) (statusText qRes) (text qRes)), w')
    /\ poll_calls w w' = S n
    /\ fetch_calls w w' = 1%nat.
Proof.
  intros Hreach Hup Hok Hjson H3 Hid Hup' Hok'.
  pose proof (reaches_poll_time _ _ _ _ _ Hreach) as Hlt.
  eexists. split_and!.
  - rewrite (reaches_poll_run _ _ _ _ _ _ Hreach).
    rewrite (poll_done_with_id _ _ _ _ _ _ _ _ _ _ _ _ Hlt Hup Hok Hjson H3 Hid).
    cbn zeta. rewrite bind_run.
    rewrite (fetch_run upstream (FetchCall qrid apiKey) _ took' (Some qRes)).
    + rewrite bind_run. unfold check_ok. rewrite Hok'. reflexivity.
    + cbn [calls]. rewrite length_app. cbn [length]. by rewrite Nat.add_1_r.
  - by apply (after_fetch_counts _ _ _ _ _ _ _ Hreach).
  - by apply (after_fetch_counts _ _ _ _ _ _ _ Hreach).
Qed.

(** X7.  When the submit call alone uses up the time budget (in particular
    when the budget is zero or negative), the invocation whose submit answer
    names a job fails with [PollTimeout] without polling once. *)
Theorem spent_budget_skips_polling (fuel : nat) (w : World) (apiKey : string)
    (took : N) (res : Response) (payload jobId : JSON) (t : Z) :
  JS.pick (apiKey_of_args env redashApiKey) = Some apiKey ->
  upstream (length (calls w)) (submit apiKey) = (took, Some res) ->
  ok res = true ->
  json res = Some payload ->
  Json.truthy (Some payload ?. "query_result") = false ->
  Json.pick (jobId_of payload) = Some jobId ->
  timeoutMs_of env timeoutSeconds = JS.Num t ->
  t <= Z.of_N took ->
  handler fuel w
  = (Throw (PollTimeout jobId (JS.Num t)),
     mkWorld (now w + Z.of_N took) (calls w ++ [submit apiKey])).
Proof.
  intros Hkey Hup Hok Hjson Hqr Hjob Ht Hle.
  rewrite (getDataHandler_job env upstream _ _ _ _ _ _ _ _ _ _ _ _ _
             Hkey Hup Hok Hjson Hqr Hjob).
  rewrite Ht, poll_expired; [done|].
  cbn. apply Z.ltb_ge. lia.
Qed.

End HandlerCases.

(** The loop polls one job, and resolves only after a poll. *)
Lemma poll_loop_shape (upstream : Upstream) (apiKey : string) (started : Z)
    (timeoutMs pollDelayMs : JS.num) (jobId : JSON) (fuel : nat) (w : World) :
  exists o w' k,
    pollJobUntilDone upstream apiKey started timeoutMs pollDelayMs fuel jobId w = (o, w')
    /\ calls w' = calls w ++ replicate k (PollCall jobId apiKey)
    /\ (forall qrid, o = Return qrid -> (1 <= k)%nat).
Proof.
  revert w. induction fuel as [|fuel IH]; intros w.
  all: destruct (JS.lt (now w - started) timeoutMs) eqn:Hlt;
    [| exists (Throw (PollTimeout jobId timeoutMs)), w, 0%nat;
       rewrite (poll_expired _ _ _ _ _ _ _ _ Hlt), app_nil_r; by split_and! ].
  { exists Pending, w, 0%nat.
    rewrite (poll_pending _ _ _ _ _ _ _ Hlt), app_nil_r. by split_and!. }
  destruct (upstream (length (calls w)) (PollCall jobId apiKey))
    as [took answer] eqn:Hup.
  rewrite (poll_body _ _ _ _ _ _ fuel w took answer Hlt Hup). cbn zeta.
  assert (Hstop : forall (o : outcome JSON) (t : Z),
            exists o' w' k,
              (o, mkWorld t (calls w ++ [PollCall jobId apiKey])) = (o', w')
              /\ calls w' = calls w ++ replicate k (PollCall jobId apiKey)
              /\ (forall qrid, o' = Return qrid -> (1 <= k)%nat)).
  { intros o t. eexists o, _, 1%nat. by split_and!. }
  destruct answer as [res|]; [|by apply Hstop].
  destruct (ok res); [|by apply Hstop].
  destruct (json res) as [jobJson|]; [|by apply Hstop].
  destruct (Json.is_number (status_of jobJson) 3).
  { destruct (Json.pick (qrid_of jobJson)); by apply Hstop. }
  destruct (Json.is_number (status_of jobJson) 4); [by apply Hstop|].
  destruct (IH (mkWorld (now w + Z.of_N took + JS.timer_delay pollDelayMs
                         + Z.of_N (lateness upstream
                                     (length (calls w ++ [PollCall jobId apiKey]))))
                        (calls w ++ [PollCall jobId apiKey])))
    as (o & w' & k & Hrun & Hcalls & Ho).
  exists o, w', (S k). split_and!; [done | | intros; lia].
  rewrite Hcalls. cbn [calls]. by rewrite <- app_assoc.
Qed.

(** X8.  The upstream calls of one invocation, in every case and for every
    engine.  When no credential resolves the invocation fails with
    [MissingCredential] and makes none.  When the credential [apiKey]
    resolves, its calls are exactly one submit carrying [apiKey], then polls
    of one job with [apiKey], then at most one fetch with [apiKey], which
    comes last and only after a poll; and an invocation that has polled never
    returns a result without having fetched it. *)
Theorem invocation_call_shape (env : gmap string string) (upstream : Upstream)
    (org : string)
    (redashApiKey timeoutSeconds pollMs maxAgeSeconds queryId : option string)
    (fuel : nat) (w : World) :
  exists o w',
    getDataHandler env upstream org redashApiKey timeoutSeconds pollMs
                   maxAgeSeconds queryId fuel w = (o, w')
    /\ match JS.pick (apiKey_of_args env redashApiKey) with
       | None => o = Throw MissingCredential /\ w' = w
       | Some apiKey =>
           exists jobId k fetched,
             calls w' = calls w
                        ++ SubmitCall (queryIdToUse_of env queryId) apiKey org
                                      (maxAge_of env maxAgeSeconds)
                        :: replicate k (PollCall jobId apiKey) ++ fetched
             /\ (fetched = []
                 \/ (exists qrid, fetched = [FetchCall qrid apiKey]) /\ (1 <= k)%nat)
             /\ (forall r, o = Return r -> fetched = [] -> k = 0%nat)
       end.
Proof.
  destruct (JS.pick (apiKey_of_args env redashApiKey)) as [apiKey|] eqn:Hkey.
  2: { rewrite (getDataHandler_missing env upstream _ _ _ _ _ _ _ _ Hkey).
       by eexists _, _. }
  unfold getDataHandler. rewrite Hkey.
  set (rq := SubmitCall _ _ _ _).
  rewrite bind_run. cbn [Date_now].
  destruct (upstream (length (calls w)) rq) as [took answer] eqn:Hup.
  rewrite bind_run, (fetch_run _ _ _ _ _ Hup).
  assert (Hearly : forall (o : outcome ToolResult),
            exists o' w',
              (o, mkWorld (now w + Z.of_N took) (calls w ++ [rq])) = (o', w')
              /\ exists jobId k fetched,
                   calls w' = calls w ++ rq
                                :: replicate k (PollCall jobId apiKey) ++ fetched
                   /\ (fetched = []
                       \/ (exists qrid, fetched = [FetchCall qrid apiKey])
                          /\ (1 <= k)%nat)
                   /\ (forall r, o' = Return r -> fetched = [] -> k = 0%nat)).
  { intros o. eexists _, _. split; [done|].
    exists JNull, 0%nat, []. split_and!; [done | by left | done]. }
  destruct answer as [res|]; [|by apply Hearly].
  rewrite bind_run. unfold check_ok.
  destruct (ok res); [|by apply Hearly].
  cbn [negb mret M_ret]. rewrite bind_run. unfold res_json.
  destruct (json res) as [payload|]; [|by apply Hearly].
  cbn [mret M_ret].
  destruct (Json.truthy (Some payload ?. "query_result")); [by apply Hearly|].
  destruct (Json.pick (jobId_of payload)) as [jobId|]; [|by apply Hearly].
  clear Hearly. rewrite bind_run.
  destruct (poll_loop_shape upstream apiKey (now w) (timeoutMs_of env timeoutSeconds)
              (pollDelayMs_of env pollMs) jobId fuel
              (mkWorld (now w + Z.of_N took) (calls w ++ [rq])))
    as (o & w1 & k & Hrun & Hcalls & Hk).
  rewrite Hrun. cbn [calls] in Hcalls.
  destruct o as [qrid|e|].
  2: { exists (Throw e), w1. split; [done|].
       exists jobId, k, []. split_and!; [| by left | done].
       by rewrite Hcalls, app_nil_r, <- app_assoc. }
  2: { exists Pending, w1. split; [done|].
       exists jobId, k, []. split_and!; [| by left | done].
       by rewrite Hcalls, app_nil_r, <- app_assoc. }
  specialize (Hk qrid eq_refl).
  destruct (upstream (length (calls w1)) (FetchCall qrid apiKey))
    as [took' answer'] eqn:Hup'.
  rewrite bind_run, (fetch_run _ _ _ _ _ Hup').
  assert (Hlate : forall (o : outcome ToolResult),
            exists o' w',
              (o, mkWorld (now w1 + Z.of_N took') (calls w1 ++ [FetchCall qrid apiKey]))
              = (o', w')
              /\ exists jobId' k' fetched,
                   calls w' = calls w ++ rq
                                :: replicate k' (PollCall jobId' apiKey) ++ fetched
                   /\ (fetched = []
                       \/ (exists qrid', fetched = [FetchCall qrid' apiKey])
                          /\ (1 <= k')%nat)
                   /\ (forall r, o' = Return r -> fetched = [] -> k' = 0%nat)).
  { intros o. eexists _, _. split; [done|].
    exists jobId, k, [FetchCall qrid apiKey]. split_and!.
    - cbn [calls]. by rewrite Hcalls, <- !app_assoc.
    - right. split; [by exists qrid | done].
    - done. }
  destruct answer' as [qRes|]; [|by apply Hlate].
  rewrite bind_run. destruct (ok qRes); [|by apply Hlate].
  cbn [negb mret M_ret]. rewrite bind_run.
  destruct (json qRes) as [qJson|]; by apply Hlate.
Qed.

(** X9.  With no override and the environment variables unset or empty, the
    handler works with its literals: a budget of 60000 ms, a poll interval of
    2000 ms, the query 35173 and no [max_age] in the body. *)
Theorem unset_configuration_gives_defaults (env : gmap string string)
    (upstream : Upstream) (org : string) (fuel : nat) (w : World) (apiKey : string) :
  JS.pick (env !! "REDASH_KEY") = Some apiKey ->
  JS.pick (env !! "QUERY_TIMEOUT_SECONDS") = None ->
  JS.pick (env !! "QUERY_POLL_MS") = None ->
  JS.pick (env !! "QUERY_MAX_AGE_SECONDS") = None ->
  JS.pick (env !! "REDASH_QUERY_ID") = None ->
  timeoutMs_of env None = JS.Num 60000
  /\ pollDelayMs_of env None = JS.Num 2000
  /\ exists o w' rest,
       getData_stdio env upstream org fuel w = (o, w')
       /\ calls w' = calls w ++ SubmitCall "35173" apiKey org None :: rest.
Proof.
  intros Hkey Ht Hp Hm Hq.
  assert (Hor : forall v, JS.pick v = None -> JS.pick (JS.or None v) = None)
    by (intros v Hv; by rewrite pick_or, Hv).
  split_and!.
  - unfold timeoutMs_of, JS.or_default. by rewrite (Hor _ Ht).
  - unfold pollDelayMs_of, JS.or_default. by rewrite (Hor _ Hp).
  - unfold getData_stdio.
    assert (Hk : JS.pick (apiKey_of_args env None) = Some apiKey)
      by (unfold apiKey_of_args; by rewrite pick_or).
    destruct (getDataHandler_trace env upstream org None None None None None
                fuel w apiKey Hk) as (o & w' & rest & Hrun & Hcalls & _).
    exists o, w', rest. split; [done|]. rewrite Hcalls.
    unfold queryIdToUse_of, JS.or_default, maxAge_of.
    by rewrite (Hor _ Hq), Hm.
Qed.


(* ===================================================================== *)
(** ** Further properties of the session maps *)
(* ===================================================================== *)

Lemma put_lookup_ne {A : Type} (sessionId other : string) (v : option A)
    (m : gmap string A) :
  other <> sessionId -> put sessionId v m !! other = m !! other.
Proof. intros H. destruct v; cbn; [by rewrite lookup_insert_ne|done]. Qed.

Lemma put_lookup_eq {A : Type} (sessionId : string) (v : option A)
    (m : gmap string A) :
  put sessionId v m !! sessionId
  = match v with Some x => Some x | None => m !! sessionId end.
Proof. destruct v; cbn; [by rewrite lookup_insert_eq|done]. Qed.

Lemma put_dom {A : Type} (sessionId : string) (v : option A) (m : gmap string A) :
  dom (put sessionId v m) ⊆ {[sessionId]} ∪ dom m.
Proof. destruct v; cbn; [rewrite dom_insert_L|]; set_solver. Qed.

Lemma updates_fields (sessionId : string) (key : option string)
    (c : TimeoutConfig) (q : option string) (st : Sessions) :
  let st' := set_queryId sessionId q (set_timeouts sessionId c
               (set_apiKey sessionId key st)) in
  sessionServers st' = sessionServers st
  /\ sessionTransports st' = sessionTransports st
  /\ sessionApiKeys st' = put sessionId (JS.pick key) (sessionApiKeys st)
  /\ sessionTimeouts st'
     = put sessionId (if any_timeout c then Some c else None) (sessionTimeouts st)
  /\ sessionQueryIds st' = put sessionId (JS.pick q) (sessionQueryIds st).
Proof.
  unfold set_queryId, set_timeouts, set_apiKey.
  destruct (JS.pick key), (any_timeout c), (JS.pick q); by cbn.
Qed.

Lemma handleSse_fields (env : gmap string string) (sessionId : string)
    (headers : Headers) (st : Sessions) :
  let st' := handleSse env sessionId headers st in
  sessionServers st' = {[sessionId]} ∪ sessionServers st
  /\ sessionTransports st' = {[sessionId]} ∪ sessionTransports st
  /\ sessionApiKeys st'
     = put sessionId (JS.pick (JS.or (redashApiKey_of headers) (env !! "REDASH_KEY")))
           (sessionApiKeys st)
  /\ sessionTimeouts st'
     = put sessionId (if any_timeout (timeoutConfig_of headers)
                      then Some (timeoutConfig_of headers) else None)
           (sessionTimeouts st)
  /\ sessionQueryIds st' = put sessionId (JS.pick (queryId_of headers))
                               (sessionQueryIds st).
Proof.
  cbn zeta. unfold handleSse, set_endpoints. cbn [sessionServers sessionTransports
    sessionApiKeys sessionTimeouts sessionQueryIds].
  destruct (updates_fields sessionId
              (JS.or (redashApiKey_of headers) (env !! "REDASH_KEY"))
              (timeoutConfig_of headers) (queryId_of headers) st)
    as (-> & -> & -> & -> & ->).
  done.
Qed.

Lemma handleMessages_fields (sessionId : string) (headers : Headers)
    (st st' : Sessions) :
  handleMessages sessionId headers st = Some st' ->
  sessionId ∈ sessionTransports st
  /\ sessionId ∈ sessionServers st
  /\ sessionServers st' = sessionServers st
  /\ sessionTransports st' = sessionTransports st
  /\ sessionApiKeys st'
     = put sessionId (JS.pick (redashApiKey_of headers)) (sessionApiKeys st)
  /\ sessionTimeouts st'
     = put sessionId (if any_timeout (timeoutConfig_of headers)
                      then Some (timeoutConfig_of headers) else None)
           (sessionTimeouts st)
  /\ sessionQueryIds st' = put sessionId (JS.pick (queryId_of headers))
                               (sessionQueryIds st).
Proof.
  unfold handleMessages.
  destruct (bool_decide (sessionId ∈ sessionTransports st)) eqn:Ht; [|done].
  destruct (bool_decide (sessionId ∈ sessionServers st)) eqn:Hs; [|done].
  cbn [andb]. intros [= <-].
  apply bool_decide_eq_true_1 in Ht, Hs.
  destruct (updates_fields sessionId (redashApiKey_of headers)
              (timeoutConfig_of headers) (queryId_of headers) st)
    as (-> & -> & -> & -> & ->).
  done.
Qed.

Lemma handleMessages_none (sessionId : string) (headers : Headers) (st : Sessions) :
  handleMessages sessionId headers st = None
  <-> ~ (sessionId ∈ sessionTransports st /\ sessionId ∈ sessionServers st).
Proof.
  unfold handleMessages.
  destruct (bool_decide (sessionId ∈ sessionTransports st)) eqn:Ht;
    destruct (bool_decide (sessionId ∈ sessionServers st)) eqn:Hs; cbn [andb].
  all: try apply bool_decide_eq_true_1 in Ht.
  all: try apply bool_decide_eq_true_1 in Hs.
  all: try apply bool_decide_eq_false_1 in Ht.
  all: try apply bool_decide_eq_false_1 in Hs.
  all: split; [try done; tauto | try done; tauto].
Qed.

(** X11.  What a closed connection leaves: nothing is held for the session
    any more, a later POST /messages for it is answered 400, and closing it a
    second time changes nothing. *)
Theorem close_forgets_session (sessionId : string) (headers : Headers)
    (st : Sessions) :
  session_view (handleClose sessionId st) sessionId = no_view
  /\ handleMessages sessionId headers (handleClose sessionId st) = None
  /\ handleClose sessionId (handleClose sessionId st) = handleClose sessionId st.
Proof.
  split_and!.
  - unfold session_view, no_view, handleClose.
    cbn [sessionServers sessionTransports sessionApiKeys sessionTimeouts
         sessionQueryIds].
    rewrite !lookup_delete_eq.
    rewrite !bool_decide_eq_false_2 by set_solver. done.
  - apply handleMessages_none. unfold handleClose. cbn. set_solver.
  - unfold handleClose.
    cbn [sessionServers sessionTransports sessionApiKeys sessionTimeouts
         sessionQueryIds].
    rewrite !delete_delete_eq. f_equal; set_solver.
Qed.

(** X12.  Opening a connection under an identifier the maps do not know and
    closing it again gives the maps back as they were: a session leaves no
    residue, whatever headers it was opened with. *)
Theorem connect_then_close_restores (env : gmap string string)
    (sessionId : string) (headers : Headers) (st : Sessions) :
  session_view st sessionId = no_view ->
  handleClose sessionId (handleSse env sessionId headers st) = st.
Proof.
  unfold session_view, no_view. intros [= Hs Ht Hk Hc Hq].
  apply bool_decide_eq_false_1 in Hs, Ht.
  unfold handleClose.
  destruct (handleSse_fields env sessionId headers st)
    as (-> & -> & -> & -> & ->).
  destruct st as [servers transports keys timeouts queries].
  cbn [sessionServers sessionTransports sessionApiKeys sessionTimeouts
       sessionQueryIds] in *.
  assert (Hput : forall (A : Type) (v : option A) (m : gmap string A),
            m !! sessionId = None -> delete sessionId (put sessionId v m) = m).
  { intros A v m Hm. destruct v; cbn; [by apply delete_insert_id|by apply delete_id]. }
  rewrite !Hput by done.
  f_equal; set_solver.
Qed.

Lemma view_callback (env : gmap string string) (upstream : Upstream)
    (st st' : Sessions) (sessionId org : string) (fuel : nat) (w : World) :
  session_view st' sessionId = session_view st sessionId ->
  getData_callback env upstream st' sessionId org fuel w
  = getData_callback env upstream st sessionId org fuel w.
Proof.
  unfold session_view. intros [= _ _ Hk Hc Hq].
  unfold getData_callback. by rewrite Hk, Hc, Hq.
Qed.

Lemma handleSse_view_ne (env : gmap string string) (sessionId other : string)
    (headers : Headers) (st : Sessions) :
  other <> sessionId ->
  session_view (handleSse env sessionId headers st) other = session_view st other.
Proof.
  intros Hne. unfold session_view.
  destruct (handleSse_fields env sessionId headers st)
    as (-> & -> & -> & -> & ->).
  rewrite !put_lookup_ne by done.
  rewrite (bool_decide_ext (other ∈ {[sessionId]} ∪ sessionServers st)
                           (other ∈ sessionServers st)) by set_solver.
  rewrite (bool_decide_ext (other ∈ {[sessionId]} ∪ sessionTransports st)
                           (other ∈ sessionTransports st)) by set_solver.
  done.
Qed.

Lemma handleMessages_view_ne (sessionId other : string) (headers : Headers)
    (st st' : Sessions) :
  handleMessages sessionId headers st = Some st' ->
  other <> sessionId ->
  session_view st' other = session_view st other.
Proof.
  intros H Hne. unfold session_view.
  destruct (handleMessages_fields _ _ _ _ H)
    as (_ & _ & -> & -> & -> & -> & ->).
  by rewrite !put_lookup_ne by done.
Qed.

Lemma handleClose_view_ne (sessionId other : string) (st : Sessions) :
  other <> sessionId ->
  session_view (handleClose sessionId st) other = session_view st other.
Proof.
  intros Hne. unfold session_view, handleClose.
  cbn [sessionServers sessionTransports sessionApiKeys sessionTimeouts
       sessionQueryIds].
  rewrite !lookup_delete_ne by done.
  rewrite (bool_decide_ext (other ∈ sessionServers st ∖ {[sessionId]})
                           (other ∈ sessionServers st)) by set_solver.
  rewrite (bool_decide_ext (other ∈ sessionTransports st ∖ {[sessionId]})
                           (other ∈ sessionTransports st)) by set_solver.
  done.
Qed.

(** X13.  A request leaves every session it does not address as it was:
    whatever the request (health check, new connection, message, anything
    else), a session that is neither the one being created nor the one named
    by the [sessionId] parameter keeps all that the maps hold for it, and a
    [getData] call on it runs exactly as it would have before. *)
Theorem request_leaves_other_sessions (env : gmap string string)
    (newSessionId : string) (req : IncomingMessage) (st : Sessions)
    (other : string) :
  other <> newSessionId ->
  req_sessionId req <> Some other ->
  session_view (httpServer env newSessionId req st).2 other = session_view st other
  /\ forall env' upstream org fuel w,
       getData_callback env' upstream (httpServer env newSessionId req st).2
                        other org fuel w
       = getData_callback env' upstream st other org fuel w.
Proof.
  intros Hnew Hreq.
  assert (Hview : session_view (httpServer env newSessionId req st).2 other
                  = session_view st other).
  { unfold httpServer.
    destruct (_ && _); [done|].
    destruct (_ && _); [by apply handleSse_view_ne|].
    destruct (_ && _); [|done].
    destruct (req_sessionId req) as [sessionId|]; [|done].
    destruct (handleMessages sessionId (req_headers req) st) as [st'|] eqn:H; [|done].
    cbn [snd]. apply (handleMessages_view_ne _ _ _ _ _ H). congruence. }
  split; [done|]. intros. by apply view_callback.
Qed.

(** X14.  Closing one connection removes nothing of another session: the
    other session keeps its entries and its [getData] calls run as before. *)
Theorem close_leaves_other_sessions (sessionId other : string) (st : Sessions) :
  other <> sessionId ->
  session_view (handleClose sessionId st) other = session_view st other
  /\ forall env upstream org fuel w,
       getData_callback env upstream (handleClose sessionId st) other org fuel w
       = getData_callback env upstream st other org fuel w.
Proof.
  intros Hne. split; [by apply handleClose_view_ne|].
  intros. apply view_callback. by apply handleClose_view_ne.
Qed.

(** X15.  A request that is answered with the health report, with 400 or with
    404 changes none of the maps; a POST /messages request whose [sessionId]
    is missing or names no live session is answered 400. *)
Theorem unserved_requests_change_nothing (env : gmap string string)
    (newSessionId : string) (req : IncomingMessage) (st : Sessions) :
  ((httpServer env newSessionId req st).1 = HealthOk
   \/ (httpServer env newSessionId req st).1 = NoTransport
   \/ (httpServer env newSessionId req st).1 = NotFound ->
   (httpServer env newSessionId req st).2 = st)
  /\ (req_method req = "POST" ->
      req_pathname req = "/messages" ->
      (forall sessionId, req_sessionId req = Some sessionId ->
         ~ (sessionId ∈ sessionTransports st /\ sessionId ∈ sessionServers st)) ->
      httpServer env newSessionId req st = (NoTransport, st)).
Proof.
  split.
  - unfold httpServer.
    destruct (_ && _); [done|].
    destruct (_ && _); [cbn; intros [|[|]]; done|].
    destruct (_ && _); [|done].
    destruct (req_sessionId req) as [sessionId|]; [|done].
    destruct (handleMessages sessionId (req_headers req) st); [|done].
    cbn. intros [|[|]]; done.
  - intros Hm Hp Hdead. unfold httpServer. rewrite Hm, Hp. cbn.
    destruct (req_sessionId req) as [sessionId|]; [|done].
    specialize (Hdead sessionId eq_refl).
    apply (handleMessages_none sessionId (req_headers req)) in Hdead.
    by rewrite Hdead.
Qed.

(** *** What the maps keep true *)

Lemma pick_truthy (a : option string) (k : string) :
  JS.pick a = Some k -> JS.truthy (Some k) = true.
Proof. unfold JS.pick. destruct (JS.truthy a) eqn:E; [|done]. by intros ->. Qed.

Lemma put_all {A : Type} (P : A -> Prop) (sessionId : string) (v : option A)
    (m : gmap string A) :
  (forall i x, m !! i = Some x -> P x) ->
  (forall x, v = Some x -> P x) ->
  forall i x, put sessionId v m !! i = Some x -> P x.
Proof.
  intros Hm Hv i x. destruct v as [y|]; cbn; [|by apply Hm].
  destruct (decide (i = sessionId)) as [->|Hne].
  - rewrite lookup_insert_eq. intros [= <-]. by apply Hv.
  - rewrite lookup_insert_ne by done. by apply Hm.
Qed.

Lemma well_kept_start : well_kept no_sessions.
Proof.
  unfold well_kept, no_sessions. cbn. split_and!; try done; set_solver.
Qed.

Lemma well_kept_puts (sessionId : string) (key : option string)
    (c : option TimeoutConfig) (q : option string)
    (servers transports : gset string) (st : Sessions) :
  well_kept st ->
  servers = transports ->
  {[sessionId]} ∪ sessionServers st ⊆ servers ->
  (forall k, key = Some k -> JS.truthy (Some k) = true) ->
  (forall x, c = Some x -> any_timeout x = true) ->
  (forall x, q = Some x -> JS.truthy (Some x) = true) ->
  well_kept (mkSessions servers transports
                        (put sessionId key (sessionApiKeys st))
                        (put sessionId c (sessionTimeouts st))
                        (put sessionId q (sessionQueryIds st))).
Proof.
  intros (Heq & Hdk & Hdc & Hdq & Hk & Hc & Hq) Hst Hsub Hkey Hcfg Hqid.
  unfold well_kept. cbn. split_and!; [done | | | | | |].
  - pose proof (put_dom sessionId key (sessionApiKeys st)). set_solver.
  - pose proof (put_dom sessionId c (sessionTimeouts st)). set_solver.
  - pose proof (put_dom sessionId q (sessionQueryIds st)). set_solver.
  - by apply put_all.
  - by apply put_all.
  - by apply put_all.
Qed.

Lemma record_eta (st : Sessions) :
  st = mkSessions (sessionServers st) (sessionTransports st) (sessionApiKeys st)
                  (sessionTimeouts st) (sessionQueryIds st).
Proof. by destruct st. Qed.

Lemma well_kept_handleSse (env : gmap string string) (sessionId : string)
    (headers : Headers) (st : Sessions) :
  well_kept st -> well_kept (handleSse env sessionId headers st).
Proof.
  intros Hst. rewrite (record_eta (handleSse env sessionId headers st)).
  destruct (handleSse_fields env sessionId headers st)
    as (-> & -> & -> & -> & ->).
  apply well_kept_puts; [done | | done | | |].
  - destruct Hst as (-> & _). done.
  - intros k. apply pick_truthy.
  - intros x. destruct (any_timeout _) eqn:E; [by intros [= <-]|done].
  - intros x. apply pick_truthy.
Qed.

Lemma well_kept_handleMessages (sessionId : string) (headers : Headers)
    (st st' : Sessions) :
  well_kept st -> handleMessages sessionId headers st = Some st' -> well_kept st'.
Proof.
  intros Hst H. rewrite (record_eta st').
  destruct (handleMessages_fields _ _ _ _ H)
    as (_ & Hlive & -> & -> & -> & -> & ->).
  apply well_kept_puts; [done | | | | |].
  - by destruct Hst as (? & _).
  - set_solver.
  - intros k. apply pick_truthy.
  - intros x. destruct (any_timeout _) eqn:E; [by intros [= <-]|done].
  - intros x. apply pick_truthy.
Qed.

Lemma well_kept_handleClose (sessionId : string) (st : Sessions) :
  well_kept st -> well_kept (handleClose sessionId st).
Proof.
  intros (Heq & Hdk & Hdc & Hdq & Hk & Hc & Hq).
  unfold well_kept, handleClose. cbn. split_and!.
  - by rewrite Heq.
  - rewrite dom_delete_L. set_solver.
  - rewrite dom_delete_L. set_solver.
  - rewrite dom_delete_L. set_solver.
  - intros i k. rewrite lookup_delete. case_decide; [done|]. apply Hk.
  - intros i c. rewrite lookup_delete. case_decide; [done|]. apply Hc.
  - intros i q. rewrite lookup_delete. case_decide; [done|]. apply Hq.
Qed.

(** X16.  Whatever requests a server has answered and whatever connections
    have closed, its maps are well kept: servers and transports are held for
    the same sessions; a key, a timeout record or a query id is held only for
    a live session (a closed session leaves no credential behind); a held key
    or query id is never the empty string and a held timeout record has a
    non-empty field. *)
Theorem reachable_maps_are_well_kept (st : Sessions) :
  reachable st -> well_kept st.
Proof.
  induction 1 as [|env newSessionId req st _ IH|sessionId st _ IH].
  - apply well_kept_start.
  - unfold httpServer.
    destruct (_ && _); [done|].
    destruct (_ && _); [by apply well_kept_handleSse|].
    destruct (_ && _); [|done].
    destruct (req_sessionId req) as [sessionId|]; [|done].
    destruct (handleMessages sessionId (req_headers req) st) as [st'|] eqn:H; [|done].
    by apply (well_kept_handleMessages _ _ _ _ IH H).
  - by apply well_kept_handleClose.
Qed.

Lemma reachable_maps_are_well_kept_witness :
  well_kept
    (httpServer Cases.env_full "s1"
                (mkIncomingMessage "GET" "/sse" None Cases.connect_headers)
                no_sessions).2.
Proof.
  apply reachable_maps_are_well_kept.
  apply reachable_request. apply reachable_start.
Defined.

(** *** From the request to the submit call *)

(** The arguments the callback hands to the handler for a POST /messages
    request on a live session. *)
Lemma post_getData_args (env : gmap string string) (upstream : Upstream)
    (sessionId : string) (headers : Headers) (arguments : JSON) (org : string)
    (fuel : nat) (st : Sessions) (w : World) :
  sessionId ∈ sessionTransports st ->
  sessionId ∈ sessionServers st ->
  Some arguments ?. "org" = Some (JStr org) ->
  exists st',
    handleMessages sessionId headers st = Some st'
    /\ post_getData env upstream sessionId headers arguments fuel st w
       = Ran st'
           (let c := default (mkTimeoutConfig None None None)
                             (sessionTimeouts st' !! sessionId) in
            getDataHandler env upstream org
              (JS.or (sessionApiKeys st' !! sessionId) (env !! "REDASH_KEY"))
              (timeoutSeconds c) (pollMs c) (maxAgeSeconds c)
              (sessionQueryIds st' !! sessionId) fuel w).
Proof.
  intros Ht Hs Horg. eexists. split; [by apply handleMessages_live|].
  unfold post_getData. rewrite (handleMessages_live _ _ _ Ht Hs).
  unfold call_getData. rewrite Horg. reflexivity.
Qed.

(** X17.  The submit call of a POST /messages request on a live session goes
    to the query named by the request's query-id header, else by the id
    stored for the session, else by [REDASH_QUERY_ID], else to 35173; and its
    [max_age] comes from the timeout record in force after the request: the
    record of this request's headers when it supplies any timeout header (so a
    stored max age is dropped by a request that sets only another field),
    the stored record otherwise. *)
Theorem post_submit_call (env : gmap string string) (upstream : Upstream)
    (sessionId : string) (headers : Headers) (arguments : JSON) (org : string)
    (fuel : nat) (st : Sessions) (w : World) (apiKey : string) :
  sessionId ∈ sessionTransports st ->
  sessionId ∈ sessionServers st ->
  Some arguments ?. "org" = Some (JStr org) ->
  Spec.resolve_credential (JS.pick (redashApiKey_of headers))
                          (JS.pick (sessionApiKeys st !! sessionId))
                          (JS.pick (env !! "REDASH_KEY")) = Some apiKey ->
  exists st' o w' rest,
    post_getData env upstream sessionId headers arguments fuel st w
    = Ran st' (o, w')
    /\ calls w'
       = calls w
         ++ SubmitCall
              (queryId_layers (queryId_of headers)
                              (sessionQueryIds st !! sessionId)
                              (env !! "REDASH_QUERY_ID"))
              apiKey org
              (maxAge_of env
                 (if any_timeout (timeoutConfig_of headers)
                  then maxAgeSeconds (timeoutConfig_of headers)
                  else match sessionTimeouts st !! sessionId with
                       | Some c => maxAgeSeconds c
                       | None => None
                       end))
         :: rest.
Proof.
  intros Ht Hs Horg Hres.
  destruct (post_getData_args env upstream _ headers _ _ fuel _ w Ht Hs Horg)
    as (st' & Hst' & ->).
  destruct (handleMessages_fields _ _ _ _ Hst')
    as (_ & _ & _ & _ & Hkeys & Htime & Hqid).
  cbn zeta.
  assert (Hkey : JS.pick (apiKey_of_args env
                   (JS.or (sessionApiKeys st' !! sessionId) (env !! "REDASH_KEY")))
                 = Some apiKey).
  { rewrite <- Hres. unfold apiKey_of_args.
    rewrite Hkeys, put_lookup_eq, !pick_or. unfold Spec.resolve_credential.
    destruct (JS.pick (redashApiKey_of headers)) as [c|] eqn:Hc.
    - apply pick_pick in Hc as [_ ->]. done.
    - by destruct (JS.pick (sessionApiKeys st !! sessionId)),
                 (JS.pick (env !! "REDASH_KEY")). }
  destruct (getDataHandler_trace env upstream org _
              (timeoutSeconds (default (mkTimeoutConfig None None None)
                                       (sessionTimeouts st' !! sessionId)))
              (pollMs (default (mkTimeoutConfig None None None)
                               (sessionTimeouts st' !! sessionId)))
              (maxAgeSeconds (default (mkTimeoutConfig None None None)
                                      (sessionTimeouts st' !! sessionId)))
              (sessionQueryIds st' !! sessionId) fuel w apiKey Hkey)
    as (o & w' & rest & -> & Hcalls & _).
  exists st', o, w', rest. split; [done|]. rewrite Hcalls.
  do 2 f_equal. f_equal.
  - unfold queryIdToUse_of, JS.or_default, queryId_layers.
    rewrite Hqid, put_lookup_eq, pick_or.
    destruct (JS.pick (queryId_of headers)) as [q|] eqn:Hq.
    + apply pick_pick in Hq as [_ ->]. done.
    + by destruct (JS.pick (sessionQueryIds st !! sessionId)),
                 (JS.pick (env !! "REDASH_QUERY_ID")).
  - f_equal. rewrite Htime, put_lookup_eq.
    destruct (any_timeout (timeoutConfig_of headers)); [done|].
    by destruct (sessionTimeouts st !! sessionId).
Qed.

(** X18.  The credential a connection is opened with (the one of its
    authorization header, else [REDASH_KEY] as the environment holds it at
    that moment) is the one later [getData] calls on the session use when
    their request carries none, whatever the environment is by then. *)
Theorem connection_credential_is_kept (env env' : gmap string string)
    (upstream : Upstream) (sessionId : string) (headers headers' : Headers)
    (arguments : JSON) (org : string) (fuel : nat) (st : Sessions) (w : World)
    (c : string) :
  JS.pick (JS.or (redashApiKey_of headers) (env !! "REDASH_KEY")) = Some c ->
  JS.pick (redashApiKey_of headers') = None ->
  Some arguments ?. "org" = Some (JStr org) ->
  exists st' o w' q max_age rest,
    post_getData env' upstream sessionId headers' arguments fuel
                 (handleSse env sessionId headers st) w
    = Ran st' (o, w')
    /\ calls w' = calls w ++ SubmitCall q c org max_age :: rest
    /\ Forall (fun rq => apiKey_of rq = c) rest.
Proof.
  intros Hc Hnone Horg.
  destruct (handleSse_fields env sessionId headers st)
    as (Hs & Ht & Hk & _ & _).
  destruct (post_getData_run env' upstream sessionId headers' arguments org fuel
              (handleSse env sessionId headers st) w)
    as (st' & key & ts & pm & ma & q & -> & Hkey); [set_solver | set_solver | done |].
  rewrite Hnone, Hk, put_lookup_eq, Hc in Hkey.
  apply pick_pick in Hc as [_ Hc]. rewrite Hc in Hkey. cbn in Hkey.
  destruct (getDataHandler_trace env' upstream org key ts pm ma q fuel w c Hkey)
    as (o & w' & rest & -> & Hcalls & Hall & _).
  by exists st', o, w', (queryIdToUse_of env' q), (maxAge_of env' ma), rest.
Qed.

(** *** Mode selection *)

Lemma includes_elem_of (flag : string) (args : list string) :
  includes flag args = true <-> flag ∈ args.
Proof.
  unfold includes. rewrite existsb_exists. split.
  - intros (x & Hin & Heq). apply String.eqb_eq in Heq as ->.
    by apply list_elem_of_In.
  - intros Hin. exists flag. split; [by apply list_elem_of_In|].
    apply String.eqb_refl.
Qed.

(** X19.  The server runs in HTTP mode exactly when the arguments hold
    [--http] or [--server] and do not hold [--stdio], wherever the flags
    stand; with neither flag, or with [--stdio] anywhere, it runs in stdio
    mode. *)
Theorem http_mode_needs_flag_and_no_stdio (args : list string) :
  useHttpMode args = true
  <-> ("--http" ∈ args \/ "--server" ∈ args) /\ "--stdio" ∉ args.
Proof.
  unfold useHttpMode, httpMode, stdioMode.
  rewrite andb_true_iff, orb_true_iff, negb_true_iff, !includes_elem_of.
  rewrite <- not_true_iff_false, includes_elem_of. done.
Qed.

(** *** A session from its first request on *)

(** X20.  A connection opened under an identifier the maps do not know makes
    the session live and stores what its own headers give: the credential of
    the authorization header, else [REDASH_KEY]; the timeout record when a
    timeout header is set; the query id when its header is set.  A later
    POST /messages for the session is then forwarded. *)
Theorem connection_stores_its_headers (env : gmap string string)
    (sessionId : string) (headers headers' : Headers) (st : Sessions) :
  session_view st sessionId = no_view ->
  session_view (handleSse env sessionId headers st) sessionId
  = (true, true,
     JS.pick (JS.or (redashApiKey_of headers) (env !! "REDASH_KEY")),
     (if any_timeout (timeoutConfig_of headers)
      then Some (timeoutConfig_of headers) else None),
     JS.pick (queryId_of headers))
  /\ (httpServer env sessionId
                 (mkIncomingMessage "POST" "/messages" (Some sessionId) headers')
                 (handleSse env sessionId headers st)).1
     = MessageForwarded sessionId.
Proof.
  unfold session_view at 1, no_view. intros [= _ _ Hk Hc Hq].
  destruct (handleSse_fields env sessionId headers st)
    as (Hs & Ht & Hkeys & Htime & Hqid).
  split.
  - unfold session_view. rewrite Hs, Ht, Hkeys, Htime, Hqid, !put_lookup_eq.
    rewrite Hk, Hc, Hq.
    rewrite !bool_decide_eq_true_2 by set_solver.
    destruct (JS.pick (JS.or _ _)), (any_timeout _), (JS.pick (queryId_of _)); done.
  - unfold httpServer. cbn [req_method req_pathname req_sessionId req_headers].
    change (String.eqb "POST" "GET") with false. cbn [andb].
    change (String.eqb "POST" "POST" && String.eqb "/messages" "/messages") with true.
    cbn iota.
    rewrite (handleMessages_live sessionId headers'
               (handleSse env sessionId headers st)) by set_solver.
    done.
Qed.

(** *** The loop budget *)

Lemma poll_budget_elapsed (timeoutMs pollDelayMs : JS.num) (e : Z) :
  0 <= e ->
  (poll_budget timeoutMs pollDelayMs e <= poll_budget timeoutMs pollDelayMs 0)%nat.
Proof.
  intros He. destruct timeoutMs as [|t| |]; cbn [poll_budget]; try done.
  pose proof (timer_delay_pos pollDelayMs) as Hd.
  pose proof (Z.div_le_mono (t - e + JS.timer_delay pollDelayMs - 1)
                (t - 0 + JS.timer_delay pollDelayMs - 1)
                (JS.timer_delay pollDelayMs)).
  lia.
Qed.

Lemma poll_loop_settles (upstream : Upstream) (apiKey : string) (started : Z)
    (timeoutMs pollDelayMs : JS.num) (jobId : JSON) (fuel : nat) (w : World) :
  timeoutMs <> JS.PosInf ->
  (poll_budget timeoutMs pollDelayMs (now w - started) <= fuel)%nat ->
  exists o w' k,
    pollJobUntilDone upstream apiKey started timeoutMs pollDelayMs fuel jobId w = (o, w')
    /\ o <> Pending
    /\ calls w' = calls w ++ replicate k (PollCall jobId apiKey)
    /\ (k <= poll_budget timeoutMs pollDelayMs (now w - started))%nat.
Proof.
  intros Hfin. revert w.
  pose proof (timer_delay_pos pollDelayMs) as Hd.
  induction fuel as [|fuel IH]; intros w Hfuel.
  all: destruct (JS.lt (now w - started) timeoutMs) eqn:Hlt;
    [| exists (Throw (PollTimeout jobId timeoutMs)), w, 0%nat;
       rewrite (poll_expired _ _ _ _ _ _ _ _ Hlt), app_nil_r;
       split_and!; [done | done | done | lia] ].
  all: destruct timeoutMs as [|t| |] eqn:Ht; [discriminate | | done | discriminate].
  all: cbn [JS.lt] in Hlt; apply Z.ltb_lt in Hlt.
  all: cbn [poll_budget] in *.
  all: pose proof (budget_pos t _ _ Hd Hlt) as Hpos.
  { lia. }
  destruct (upstream (length (calls w)) (PollCall jobId apiKey))
    as [took answer] eqn:Hup.
  assert (Hlt' : JS.lt (now w - started) (JS.Num t) = true)
    by (by apply Z.ltb_lt).
  rewrite (poll_body _ _ _ _ _ _ fuel w took answer Hlt' Hup). cbn zeta.
  set (w1 := mkWorld (now w + Z.of_N took) (calls w ++ [PollCall jobId apiKey])).
  assert (Hstop : forall o : outcome JSON, o <> Pending ->
            exists o' w' k,
              (o, w1) = (o', w') /\ o' <> Pending
              /\ calls w' = calls w ++ replicate k (PollCall jobId apiKey)
              /\ (k <= Z.to_nat ((t - (now w - started) + JS.timer_delay pollDelayMs - 1)
                                 / JS.timer_delay pollDelayMs))%nat).
  { intros o Ho. exists o, w1, 1%nat. split_and!; [done | done | done | lia]. }
  destruct answer as [res|]; [|by apply Hstop].
  destruct (ok res); [|by apply Hstop].
  destruct (json res) as [jobJson|]; [|by apply Hstop].
  destruct (Json.is_number (status_of jobJson) 3).
  { destruct (Json.pick (qrid_of jobJson)); by apply Hstop. }
  destruct (Json.is_number (status_of jobJson) 4); [by apply Hstop|].
  clear Hstop.
  set (late := lateness upstream (length (calls w ++ [PollCall jobId apiKey]))).
  set (w2 := mkWorld (now w + Z.of_N took + JS.timer_delay pollDelayMs + Z.of_N late)
                     (calls w ++ [PollCall jobId apiKey])).
  pose proof (budget_step t _ (now w - started) (Z.of_N took + Z.of_N late)
                Hd Hlt ltac:(lia)) as Hstep.
  assert (He2 : now w2 - started
                = now w - started + (Z.of_N took + Z.of_N late)
                  + JS.timer_delay pollDelayMs) by (cbn; lia).
  destruct (IH w2) as (o & w' & k & Hrun & Ho & Hcalls & Hk).
  { rewrite He2. lia. }
  rewrite He2 in Hk. cbn [calls w2] in Hcalls.
  exists o, w', (S k). split_and!; [done | done | | lia].
  rewrite Hcalls, <- app_assoc. reflexivity.
Qed.

(** A run of the loop that has settled is the run for every larger budget. *)
Lemma poll_loop_more_fuel (upstream : Upstream) (apiKey : string) (started : Z)
    (timeoutMs pollDelayMs : JS.num) (jobId : JSON) (fuel fuel' : nat)
    (w : World) (o : outcome JSON) (w' : World) :
  pollJobUntilDone upstream apiKey started timeoutMs pollDelayMs fuel jobId w = (o, w') ->
  o <> Pending ->
  (fuel <= fuel')%nat ->
  pollJobUntilDone upstream apiKey started timeoutMs pollDelayMs fuel' jobId w = (o, w').
Proof.
  revert fuel' w. induction fuel as [|fuel IH]; intros fuel' w Hrun Ho Hle.
  all: destruct (JS.lt (now w - started) timeoutMs) eqn:Hlt;
    [| rewrite (poll_expired _ _ _ _ _ _ _ _ Hlt) in Hrun;
       by rewrite (poll_expired _ _ _ _ _ _ _ _ Hlt) ].
  { rewrite (poll_pending _ _ _ _ _ _ _ Hlt) in Hrun. by injection Hrun as <- _. }
  destruct fuel' as [|fuel']; [lia|].
  destruct (upstream (length (calls w)) (PollCall jobId apiKey))
    as [took answer] eqn:Hup.
  rewrite (poll_body _ _ _ _ _ _ fuel w took answer Hlt Hup) in Hrun.
  rewrite (poll_body _ _ _ _ _ _ fuel' w took answer Hlt Hup).
  cbn zeta in *.
  destruct answer as [res|]; [|done].
  destruct (ok res); [|done].
  destruct (json res) as [jobJson|]; [|done].
  destruct (Json.is_number (status_of jobJson) 3); [done|].
  destruct (Json.is_number (status_of jobJson) 4); [done|].
  apply IH; [done | done | lia].
Qed.

(** Runs a computation whose answers are given by equations of the context. *)
Ltac step :=
  repeat (rewrite ?bind_run; unfold check_ok, res_json;
          repeat match goal with
                 | H : _ = _ |- _ => rewrite H
                 end;
          cbn [negb mret M_ret throw]);
  reflexivity.

Section Settling.

Variable env : gmap string string.
Variable upstream : Upstream.
Variable org : string.
Variables redashApiKey timeoutSeconds pollMs maxAgeSeconds queryId : option string.

Local Abbreviation handler :=
  (getDataHandler env upstream org redashApiKey timeoutSeconds pollMs
                  maxAgeSeconds queryId).
Local Abbreviation submit apiKey :=
  (SubmitCall (queryIdToUse_of env queryId) apiKey org (maxAge_of env maxAgeSeconds)).

(** Up to the loop: the invocation is over after the submit, whatever the
    budget, or the submit has given a job. *)
Lemma submit_phase (w : World) (apiKey : string) :
  JS.pick (apiKey_of_args env redashApiKey) = Some apiKey ->
  (exists o w1,
      (forall fuel, handler fuel w = (o, w1))
      /\ o <> Pending
      /\ calls w1 = calls w ++ [submit apiKey])
  \/ (exists took res payload jobId,
        upstream (length (calls w)) (submit apiKey) = (took, Some res)
        /\ ok res = true
        /\ json res = Some payload
        /\ Json.truthy (Some payload ?. "query_result") = false
        /\ Json.pick (jobId_of payload) = Some jobId).
Proof.
  intros Hkey.
  destruct (upstream (length (calls w)) (submit apiKey)) as [took answer] eqn:Hup.
  assert (Hrun : forall fuel,
            handler fuel w
            = (res ← (fun w0 : World =>
                        (match answer with
                         | Some res => Return res
                         | None => Throw (FetchRejected (submit apiKey))
                         end,
                         mkWorld (now w0 + Z.of_N took) (calls w0 ++ [submit apiKey])));
               _ ← check_ok (submit apiKey) res;
               json ← res_json (submit apiKey) res;
               if Json.truthy (Some json ?. "query_result")
               then mret (TextContent json)
               else
                 match Json.pick (jobId_of json) with
                 | None => throw (UnexpectedUpstreamShape json)
                 | Some jobId =>
                     queryResultId ←
                       pollJobUntilDone upstream apiKey (now w)
                         (timeoutMs_of env timeoutSeconds)
                         (pollDelayMs_of env pollMs) fuel jobId;
                     qRes ← fetch upstream (FetchCall queryResultId apiKey);
                     _ ← check_ok (FetchCall queryResultId apiKey) qRes;
                     qJson ← res_json (FetchCall queryResultId apiKey) qRes;
                     mret (TextContent qJson)
                 end) w).
  { intros fuel. unfold getDataHandler. rewrite Hkey.
    rewrite bind_run. cbn [Date_now].
    rewrite !bind_run, (fetch_run _ _ _ _ _ Hup). reflexivity. }
  destruct answer as [res|].
  2: { left. eexists _, _. split_and!; [intros; by rewrite Hrun | done | done]. }
  destruct (ok res) eqn:Hok.
  2: { left. eexists _, _. split_and!; [intros; rewrite Hrun; step | done | done]. }
  destruct (json res) as [payload|] eqn:Hjson.
  2: { left. eexists _, _. split_and!; [intros; rewrite Hrun; step | done | done]. }
  destruct (Json.truthy (Some payload ?. "query_result")) eqn:Hqr.
  { left. eexists _, _. split_and!; [intros; rewrite Hrun; step | done | done]. }
  destruct (Json.pick (jobId_of payload)) as [jobId|] eqn:Hjob.
  2: { left. eexists _, _. split_and!; [intros; rewrite Hrun; step | done | done]. }
  right. by exists took, res, payload, jobId.
Qed.

(** After the loop: the fetch of the result settles at once. *)
Lemma fetch_phase (apiKey : string) (queryResultId : JSON) (w : World) :
  let rq := FetchCall queryResultId apiKey in
  exists o w',
    (qRes ← fetch upstream rq;
     _ ← check_ok rq qRes;
     qJson ← res_json rq qRes;
     mret (TextContent qJson)) w = (o, w')
    /\ o <> Pending
    /\ calls w' = calls w ++ [rq].
Proof.
  intros rq.
  destruct (upstream (length (calls w)) rq) as [took answer] eqn:Hup.
  rewrite bind_run, (fetch_run _ _ _ _ _ Hup).
  destruct answer as [qRes|]; [|by eexists _, _].
  rewrite bind_run. unfold check_ok.
  destruct (ok qRes); [|by eexists _, _].
  cbn [negb mret M_ret]. rewrite bind_run. unfold res_json.
  destruct (json qRes); by eexists _, _.
Qed.

(** X21.  Every invocation whose time budget is not infinite settles: once
    the model grants as many loop bodies as the time budget holds timer delays
    (the budget divided by the delay, rounded up), the invocation returns or
    throws, it has polled at most that many times, and a larger budget of loop
    bodies gives the same outcome and the same calls. *)
Theorem invocation_settles (fuel fuel' : nat) (w : World) :
  timeoutMs_of env timeoutSeconds <> JS.PosInf ->
  (poll_budget (timeoutMs_of env timeoutSeconds) (pollDelayMs_of env pollMs) 0
   <= fuel)%nat ->
  (fuel <= fuel')%nat ->
  exists o w',
    handler fuel w = (o, w')
    /\ o <> Pending
    /\ handler fuel' w = (o, w')
    /\ (poll_calls w w'
        <= poll_budget (timeoutMs_of env timeoutSeconds) (pollDelayMs_of env pollMs) 0)%nat.
Proof.
  intros Hfin Hfuel Hle.
  destruct (JS.pick (apiKey_of_args env redashApiKey)) as [apiKey|] eqn:Hkey.
  2: { rewrite !(getDataHandler_missing env upstream _ _ _ _ _ _ _ _ Hkey).
       eexists _, _. split_and!; [done | done | done |].
       unfold poll_calls, calls_since. rewrite drop_all. cbn. lia. }
  destruct (submit_phase w apiKey Hkey)
    as [(o & w1 & Hrun & Ho & Hcalls)
       |(took & res & payload & jobId & Hup & Hok & Hjson & Hqr & Hjob)].
  { exists o, w1. rewrite !Hrun. split_and!; [done | done | done |].
    destruct (counts_of_trace w w1 (submit apiKey) 0 JNull apiKey []) as [-> _];
      [done | done | by rewrite Hcalls | cbn; lia]. }
  rewrite !(getDataHandler_job env upstream _ _ _ _ _ _ _ _ _ _ _ _ _
              Hkey Hup Hok Hjson Hqr Hjob).
  set (w1 := mkWorld (now w + Z.of_N took) (calls w ++ [submit apiKey])).
  pose proof (poll_budget_elapsed (timeoutMs_of env timeoutSeconds)
                (pollDelayMs_of env pollMs) (now w1 - now w)) as Hmono.
  assert (He : 0 <= now w1 - now w) by (cbn; lia). specialize (Hmono He).
  destruct (poll_loop_settles upstream apiKey (now w) (timeoutMs_of env timeoutSeconds)
              (pollDelayMs_of env pollMs) jobId fuel w1)
    as (o & w2 & k & Hrun & Ho & Hcalls & Hk); [done | lia |].
  rewrite (poll_loop_more_fuel _ _ _ _ _ _ _ fuel' _ _ _ Hrun Ho Hle), Hrun.
  cbn [calls w1] in Hcalls.
  destruct o as [qrid|e|]; [| |done].
  - cbn zeta.
    destruct (fetch_phase apiKey qrid w2) as (o & w3 & Hfetch & Ho' & Hcalls').
    cbn zeta in Hfetch. rewrite Hfetch.
    exists o, w3. split_and!; [done | done | done |].
    destruct (counts_of_trace w w3 (submit apiKey) k jobId apiKey
                [FetchCall qrid apiKey]) as [-> _]; [done | done | | cbn; lia].
    by rewrite Hcalls', Hcalls, <- !app_assoc.
  - exists (Throw e), w2. split_and!; [done | done | done |].
    destruct (counts_of_trace w w2 (submit apiKey) k jobId apiKey []) as [-> _];
      [done | done | | cbn; lia].
    by rewrite Hcalls, app_nil_r, <- app_assoc.
Qed.

End Settling.

(** *** A budget that is not finite *)

(** With [timeoutMs] infinite the test [Date.now() - started < timeoutMs]
    holds at every pass, so the loop has no way to its timeout. *)
Lemma unbounded_loop_never_times_out (upstream : Upstream) (apiKey : string)
    (started : Z) (pollDelayMs : JS.num) (jobId : JSON) (fuel : nat) (w : World)
    (j : JSON) (t : JS.num) :
  (pollJobUntilDone upstream apiKey started JS.PosInf pollDelayMs fuel jobId w).1
  <> Throw (PollTimeout j t).
Proof.
  revert w. induction fuel as [|fuel IH]; intros w.
  { by rewrite poll_pending. }
  destruct (upstream (length (calls w)) (PollCall jobId apiKey))
    as [took answer] eqn:Hup.
  rewrite (poll_body upstream apiKey started JS.PosInf pollDelayMs jobId
             fuel w took answer eq_refl Hup). cbn zeta.
  destruct answer as [res|]; [|done].
  destruct (ok res); [|done].
  destruct (json res) as [jobJson|]; [|done].
  destruct (Json.is_number (status_of jobJson) 3).
  { by destruct (Json.pick (qrid_of jobJson)). }
  destruct (Json.is_number (status_of jobJson) 4); [done|].
  apply IH.
Qed.

Lemma unbounded_loop_keeps_polling (upstream : Upstream) (apiKey : string)
    (started : Z) (pollDelayMs : JS.num) (jobId : JSON) :
  (forall n, exists took res payload,
      upstream n (PollCall jobId apiKey) = (took, Some res)
      /\ ok res = true
      /\ json res = Some payload
      /\ Json.is_number (status_of payload) 3 = false
      /\ Json.is_number (status_of payload) 4 = false) ->
  forall (fuel : nat) (w : World),
  exists w',
    pollJobUntilDone upstream apiKey started JS.PosInf pollDelayMs fuel jobId w
    = (Pending, w')
    /\ calls w' = calls w ++ replicate fuel (PollCall jobId apiKey).
Proof.
  intros Hwait fuel. induction fuel as [|fuel IH]; intros w.
  { exists w. by rewrite poll_pending, app_nil_r. }
  destruct (Hwait (length (calls w)))
    as (took & res & payload & Hup & Hok & Hjson & H3 & H4).
  rewrite (poll_body upstream apiKey started JS.PosInf pollDelayMs jobId
             fuel w took (Some res) eq_refl Hup). cbn zeta.
  rewrite Hok, Hjson, H3, H4.
  destruct (IH (mkWorld (now w + Z.of_N took + JS.timer_delay pollDelayMs
                         + Z.of_N (lateness upstream
                                     (length (calls w ++ [PollCall jobId apiKey]))))
                        (calls w ++ [PollCall jobId apiKey])))
    as (w' & Hrun & Hcalls).
  exists w'. split; [done|].
  rewrite Hcalls. cbn [calls replicate]. by rewrite <- app_assoc.
Qed.

(** X22.  A time budget that [parseInt] and the product by 1000 leave at
    [Infinity] switches the poll timeout off: whatever the engine answers, the
    invocation never fails with the poll-timeout error. *)
Theorem infinite_budget_never_times_out (env : gmap string string)
    (upstream : Upstream) (org : string)
    (redashApiKey timeoutSeconds pollMs maxAgeSeconds queryId : option string)
    (fuel : nat) (w : World) (j : JSON) (t : JS.num) :
  timeoutMs_of env timeoutSeconds = JS.PosInf ->
  (getDataHandler env upstream org redashApiKey timeoutSeconds pollMs
                  maxAgeSeconds queryId fuel w).1
  <> Throw (PollTimeout j t).
Proof.
  intros Hinf.
  destruct (JS.pick (apiKey_of_args env redashApiKey)) as [apiKey|] eqn:Hkey.
  2: { by rewrite (getDataHandler_missing env upstream _ _ _ _ _ _ _ _ Hkey). }
  unfold getDataHandler. rewrite Hkey, Hinf.
  set (rq := SubmitCall _ _ _ _).
  rewrite bind_run. cbn [Date_now].
  destruct (upstream (length (calls w)) rq) as [took answer] eqn:Hup.
  rewrite bind_run, (fetch_run _ _ _ _ _ Hup).
  destruct answer as [res|]; [|done].
  rewrite bind_run. unfold check_ok.
  destruct (ok res); [|done].
  cbn [negb mret M_ret]. rewrite bind_run. unfold res_json.
  destruct (json res) as [payload|]; [|done].
  cbn [mret M_ret].
  destruct (Json.truthy (Some payload ?. "query_result")); [done|].
  destruct (Json.pick (jobId_of payload)) as [jobId|]; [|done].
  rewrite bind_run.
  pose proof (unbounded_loop_never_times_out upstream apiKey (now w)
                (pollDelayMs_of env pollMs) jobId fuel
                (mkWorld (now w + Z.of_N took) (calls w ++ [rq])) j t) as Hloop.
  destruct (pollJobUntilDone upstream apiKey (now w) JS.PosInf
              (pollDelayMs_of env pollMs) fuel jobId
              (mkWorld (now w + Z.of_N took) (calls w ++ [rq])))
    as [[qrid|e|] w1];
    [| cbn in *; intros [= ->]; by apply Hloop | done].
  destruct (upstream (length (calls w1)) (FetchCall qrid apiKey))
    as [took' answer'] eqn:Hup'.
  rewrite bind_run, (fetch_run _ _ _ _ _ Hup').
  destruct answer' as [qRes|]; [|done].
  rewrite bind_run. destruct (ok qRes); [|done].
  cbn [negb mret M_ret]. rewrite bind_run.
  by destruct (json qRes).
Qed.

(** X23.  Under such an infinite budget an invocation whose job the engine
    keeps waiting has no end: however many loop bodies it is granted it is
    still in the loop, having polled once per body and fetched nothing. *)
Theorem infinite_budget_polls_without_end (env : gmap string string)
    (upstream : Upstream) (org : string)
    (redashApiKey timeoutSeconds pollMs maxAgeSeconds queryId : option string)
    (w w1 : World) (apiKey : string) (jobId : JSON) :
  timeoutMs_of env timeoutSeconds = JS.PosInf ->
  reaches_poll env upstream org redashApiKey timeoutSeconds pollMs maxAgeSeconds
               queryId w apiKey jobId 0 w1 ->
  (forall n, exists took res payload,
      upstream n (PollCall jobId apiKey) = (took, Some res)
      /\ ok res = true
      /\ json res = Some payload
      /\ Json.is_number (status_of payload) 3 = false
      /\ Json.is_number (status_of payload) 4 = false) ->
  forall fuel : nat,
  exists w',
    getDataHandler env upstream org redashApiKey timeoutSeconds pollMs
                   maxAgeSeconds queryId fuel w = (Pending, w')
    /\ poll_calls w w' = fuel
    /\ fetch_calls w w' = 0%nat.
Proof.
  intros Hinf (took & res & payload & Hkey & Hup & Hok & Hjson & Hqr & Hjob & _ & _)
         Hwait fuel.
  rewrite (getDataHandler_job env upstream _ _ _ _ _ _ _ _ _ _ _ _ _
             Hkey Hup Hok Hjson Hqr Hjob), Hinf.
  destruct (unbounded_loop_keeps_polling upstream apiKey (now w)
              (pollDelayMs_of env pollMs) jobId Hwait fuel
              (mkWorld (now w + Z.of_N took)
                 (calls w ++ [SubmitCall (queryIdToUse_of env queryId) apiKey org
                                         (maxAge_of env maxAgeSeconds)])))
    as (w' & Hrun & Hcalls).
  rewrite Hrun. exists w'. split; [done|].
  cbn [calls] in Hcalls.
  destruct (counts_of_trace w w'
              (SubmitCall (queryIdToUse_of env queryId) apiKey org
                          (maxAge_of env maxAgeSeconds))
              fuel jobId apiKey []) as [Hp Hf]; [done | done | |].
  { by rewrite Hcalls, app_nil_r, <- app_assoc. }
  rewrite Hp, Hf. cbn. split; [lia | done].
Qed.

(* ===================================================================== *)
(** ** The further properties on concrete runs *)
(* ===================================================================== *)

(** Shows that an invocation comes to a poll, on an engine that computes. *)
Ltac show_reaches :=
  unfold reaches_poll; eexists _, _, _;
  split_and!; [reflexivity | reflexivity | reflexivity | reflexivity
              | reflexivity | reflexivity | | reflexivity];
  repeat (eapply nsteps_l; [eapply waits_once; reflexivity|]);
  apply nsteps_O.

Lemma submit_http_error_is_surfaced_witness :
  getDataHandler Demo.env_key Cases.down_engine "example.com"
                 None None None None None 0%nat Demo.fresh
  = (Throw (UpstreamHTTPError (SubmitCall "35173" "env-key" "example.com" None)
                              503 "Service Unavailable" "try later"),
     mkWorld 1 [SubmitCall "35173" "env-key" "example.com" None]).
Proof.
  apply (submit_http_error_is_surfaced
           Demo.env_key Cases.down_engine "example.com" None None None None None
           0%nat Demo.fresh "env-key" 1%N Cases.unavailable);
    reflexivity.
Defined.

Lemma shapeless_submit_answer_is_surfaced_witness :
  getDataHandler Demo.env_key Cases.odd_engine "example.com"
                 None None None None None 0%nat Demo.fresh
  = (Throw (UnexpectedUpstreamShape Cases.odd_payload),
     mkWorld 2 [SubmitCall "35173" "env-key" "example.com" None]).
Proof.
  apply (shapeless_submit_answer_is_surfaced
           Demo.env_key Cases.odd_engine "example.com" None None None None None
           0%nat Demo.fresh "env-key" 2%N (Demo.ok_json Cases.odd_payload)
           Cases.odd_payload);
    reflexivity.
Defined.

Lemma failed_job_is_surfaced_witness :
  exists err w',
    getDataHandler Demo.env_key (Cases.failing_engine (JStr "boom")) "example.com"
                   None None None None None (1 + 1) Demo.fresh
    = (Throw (UpstreamJobFailed (JStr "42") err), w')
    /\ match Json.pick (Some (Cases.failed (JStr "boom")) ?. "job" ?. "error") with
       | Some e => err = e
       | None => err = JStr "Unknown Redash job failure"
       end
    /\ poll_calls Demo.fresh w' = 2%nat
    /\ fetch_calls Demo.fresh w' = 0%nat.
Proof.
  apply (failed_job_is_surfaced
           Demo.env_key (Cases.failing_engine (JStr "boom")) "example.com"
           None None None None None 1%nat 0%nat Demo.fresh "env-key" (JStr "42")
           (mkWorld 2010 [SubmitCall "35173" "env-key" "example.com" None;
                          PollCall (JStr "42") "env-key"])
           10%N (Demo.ok_json (Cases.failed (JStr "boom")))
           (Cases.failed (JStr "boom")));
    [show_reaches | reflexivity..].
Defined.

Lemma poll_http_error_is_surfaced_witness :
  exists w',
    getDataHandler Demo.env_key Cases.flaky_engine "example.com"
                   None None None None None (1 + 1) Demo.fresh
    = (Throw (UpstreamHTTPError (PollCall (JStr "42") "env-key")
                                503 "Service Unavailable" "try later"), w')
    /\ poll_calls Demo.fresh w' = 2%nat
    /\ fetch_calls Demo.fresh w' = 0%nat.
Proof.
  apply (poll_http_error_is_surfaced
           Demo.env_key Cases.flaky_engine "example.com"
           None None None None None 1%nat 0%nat Demo.fresh "env-key" (JStr "42")
           (mkWorld 2010 [SubmitCall "35173" "env-key" "example.com" None;
                          PollCall (JStr "42") "env-key"])
           10%N Cases.unavailable);
    [show_reaches | reflexivity..].
Defined.

Lemma polled_result_is_fetched_once_witness :
  exists w',
    getDataHandler Demo.env_key (Demo.scenario Demo.instant) "example.com"
                   None None None None None (2 + 1) Demo.fresh
    = (Return (TextContent Demo.rows), w')
    /\ calls w' = calls Demo.fresh
                  ++ SubmitCall "35173" "env-key" "example.com" None
                  :: replicate 3 (PollCall (JStr "42") "env-key")
                  ++ [FetchCall (JStr "99") "env-key"]
    /\ poll_calls Demo.fresh w' = 3%nat
    /\ fetch_calls Demo.fresh w' = 1%nat.
Proof.
  apply (polled_result_is_fetched_once
           Demo.env_key (Demo.scenario Demo.instant) "example.com"
           None None None None None 2%nat 0%nat Demo.fresh "env-key" (JStr "42")
           (mkWorld 4000 [SubmitCall "35173" "env-key" "example.com" None;
                          PollCall (JStr "42") "env-key";
                          PollCall (JStr "42") "env-key"])
           0%N (Demo.ok_json Demo.done_99) Demo.done_99 (JStr "99")
           0%N (Demo.ok_json Demo.rows) Demo.rows);
    [show_reaches | reflexivity..].
Defined.

Lemma fetch_http_error_is_surfaced_witness :
  exists w',
    getDataHandler Demo.env_key Cases.refusing_engine "example.com"
                   None None None None None (1 + 1) Demo.fresh
    = (Throw (UpstreamHTTPError (FetchCall (JStr "99") "env-key")
                                503 "Service Unavailable" "try later"), w')
    /\ poll_calls Demo.fresh w' = 2%nat
    /\ fetch_calls Demo.fresh w' = 1%nat.
Proof.
  apply (fetch_http_error_is_surfaced
           Demo.env_key Cases.refusing_engine "example.com"
           None None None None None 1%nat 0%nat Demo.fresh "env-key" (JStr "42")
           (mkWorld 2010 [SubmitCall "35173" "env-key" "example.com" None;
                          PollCall (JStr "42") "env-key"])
           10%N (Demo.ok_json Demo.done_99) Demo.done_99 (JStr "99")
           5%N Cases.unavailable);
    [show_reaches | reflexivity..].
Defined.

Lemma spent_budget_skips_polling_witness :
  getDataHandler Demo.env_key (Demo.scenario Demo.instant) "example.com"
                 None (Some "0") None None None 7%nat Demo.fresh
  = (Throw (PollTimeout (JStr "42") (JS.Num 0)),
     mkWorld 0 [SubmitCall "35173" "env-key" "example.com" None]).
Proof.
  apply (spent_budget_skips_polling
           Demo.env_key (Demo.scenario Demo.instant) "example.com"
           None (Some "0") None None None 7%nat Demo.fresh "env-key" 0%N
           (Demo.ok_json Demo.job_42) Demo.job_42 (JStr "42") 0);
    [reflexivity.. | lia].
Defined.

Lemma unset_configuration_gives_defaults_witness :
  timeoutMs_of Demo.env_key None = JS.Num 60000
  /\ pollDelayMs_of Demo.env_key None = JS.Num 2000
  /\ exists o w' rest,
       getData_stdio Demo.env_key Demo.cache_engine "example.com" 0%nat Demo.fresh
       = (o, w')
       /\ calls w' = calls Demo.fresh
                     ++ SubmitCall "35173" "env-key" "example.com" None :: rest.
Proof.
  apply (unset_configuration_gives_defaults
           Demo.env_key Demo.cache_engine "example.com" 0%nat Demo.fresh "env-key");
    reflexivity.
Defined.


Lemma invocation_settles_witness :
  exists o w',
    getDataHandler Demo.env_key Demo.slow_engine "example.com"
                   None (Some "12") (Some "3000") None None 4%nat Demo.fresh
    = (o, w')
    /\ o <> Pending
    /\ getDataHandler Demo.env_key Demo.slow_engine "example.com"
                      None (Some "12") (Some "3000") None None 9%nat Demo.fresh
       = (o, w')
    /\ (poll_calls Demo.fresh w'
        <= poll_budget (timeoutMs_of Demo.env_key (Some "12"))
                       (pollDelayMs_of Demo.env_key (Some "3000")) 0)%nat.
Proof.
  apply (invocation_settles
           Demo.env_key Demo.slow_engine "example.com"
           None (Some "12") (Some "3000") None None 4%nat 9%nat Demo.fresh).
  - vm_compute. discriminate.
  - vm_compute. lia.
  - lia.
Defined.

Lemma connect_then_close_restores_witness :
  handleClose "s9" (handleSse Cases.env_full "s9" Cases.connect_headers
                              Demo.one_session)
  = Demo.one_session.
Proof.
  apply (connect_then_close_restores
           Cases.env_full "s9" Cases.connect_headers Demo.one_session).
  vm_compute. reflexivity.
Defined.

Lemma request_leaves_other_sessions_witness :
  session_view
    (httpServer Cases.env_full "s9"
                (Cases.post_message "s2" Demo.bearer_header)
                (handleSse Cases.env_full "s2" ∅ Demo.one_session)).2 "s1"
  = session_view (handleSse Cases.env_full "s2" ∅ Demo.one_session) "s1"
  /\ forall env' upstream org fuel w,
       getData_callback env' upstream
         (httpServer Cases.env_full "s9"
                     (Cases.post_message "s2" Demo.bearer_header)
                     (handleSse Cases.env_full "s2" ∅ Demo.one_session)).2
         "s1" org fuel w
       = getData_callback env' upstream
           (handleSse Cases.env_full "s2" ∅ Demo.one_session) "s1" org fuel w.
Proof.
  apply (request_leaves_other_sessions
           Cases.env_full "s9" (Cases.post_message "s2" Demo.bearer_header)
           (handleSse Cases.env_full "s2" ∅ Demo.one_session) "s1").
  - discriminate.
  - simpl. discriminate.
Defined.

Lemma close_leaves_other_sessions_witness :
  session_view
    (handleClose "s2" (handleSse Cases.env_full "s2" ∅ Demo.one_session)) "s1"
  = session_view (handleSse Cases.env_full "s2" ∅ Demo.one_session) "s1"
  /\ forall env upstream org fuel w,
       getData_callback env upstream
         (handleClose "s2" (handleSse Cases.env_full "s2" ∅ Demo.one_session))
         "s1" org fuel w
       = getData_callback env upstream
           (handleSse Cases.env_full "s2" ∅ Demo.one_session) "s1" org fuel w.
Proof.
  apply (close_leaves_other_sessions
           "s2" "s1" (handleSse Cases.env_full "s2" ∅ Demo.one_session)).
  discriminate.
Defined.

Lemma post_submit_call_witness :
  exists st' o w' rest,
    post_getData Cases.env_full Demo.cache_engine "s1" Cases.query_header
                 Demo.org_example 0%nat Demo.one_session Demo.fresh
    = Ran st' (o, w')
    /\ calls w'
       = calls Demo.fresh
         ++ SubmitCall
              (queryId_layers (queryId_of Cases.query_header)
                              (sessionQueryIds Demo.one_session !! "s1")
                              (Cases.env_full !! "REDASH_QUERY_ID"))
              "session-key" "example.com"
              (maxAge_of Cases.env_full
                 (if any_timeout (timeoutConfig_of Cases.query_header)
                  then maxAgeSeconds (timeoutConfig_of Cases.query_header)
                  else match sessionTimeouts Demo.one_session !! "s1" with
                       | Some c => maxAgeSeconds c
                       | None => None
                       end))
         :: rest.
Proof.
  apply (post_submit_call
           Cases.env_full Demo.cache_engine "s1" Cases.query_header
           Demo.org_example "example.com" 0%nat Demo.one_session Demo.fresh
           "session-key").
  - vm_compute. reflexivity.
  - vm_compute. reflexivity.
  - reflexivity.
  - vm_compute. reflexivity.
Defined.

Lemma connection_credential_is_kept_witness :
  exists st' o w' q max_age rest,
    post_getData ∅ Demo.cache_engine "s9" ∅ Demo.org_example 0%nat
                 (handleSse Demo.env_key "s9" Cases.connect_headers no_sessions)
                 Demo.fresh
    = Ran st' (o, w')
    /\ calls w' = calls Demo.fresh
                  ++ SubmitCall q "connect-key" "example.com" max_age :: rest
    /\ Forall (fun rq => apiKey_of rq = "connect-key") rest.
Proof.
  apply (connection_credential_is_kept
           Demo.env_key ∅ Demo.cache_engine "s9" Cases.connect_headers ∅
           Demo.org_example "example.com" 0%nat no_sessions Demo.fresh
           "connect-key").
  - vm_compute. reflexivity.
  - vm_compute. reflexivity.
  - reflexivity.
Defined.

Lemma connection_stores_its_headers_witness :
  session_view (handleSse Cases.env_full "s9" Cases.connect_headers Demo.one_session)
               "s9"
  = (true, true,
     JS.pick (JS.or (redashApiKey_of Cases.connect_headers)
                    (Cases.env_full !! "REDASH_KEY")),
     (if any_timeout (timeoutConfig_of Cases.connect_headers)
      then Some (timeoutConfig_of Cases.connect_headers) else None),
     JS.pick (queryId_of Cases.connect_headers))
  /\ (httpServer Cases.env_full "s9"
                 (mkIncomingMessage "POST" "/messages" (Some "s9") ∅)
                 (handleSse Cases.env_full "s9" Cases.connect_headers
                            Demo.one_session)).1
     = MessageForwarded "s9".
Proof.
  apply (connection_stores_its_headers
           Cases.env_full "s9" Cases.connect_headers ∅ Demo.one_session).
  vm_compute. reflexivity.
Defined.

(** The runs of the witnesses, computed: the query and the max age of a
    request that names a query, and what a new connection stores. *)
Example query_header_wins :
  post_getData Cases.env_full Demo.cache_engine "s1" Cases.query_header
               Demo.org_example 0%nat Demo.one_session Demo.fresh
  = Ran (set_queryId "s1" (Some "456") Demo.one_session)
        (Return (TextContent Demo.cached),
         mkWorld 3 [SubmitCall "456" "session-key" "example.com"
                               (Some (JS.Num 300))]).
Proof. vm_compute. reflexivity. Qed.

Example environment_query_and_max_age :
  post_getData Cases.env_full Demo.cache_engine "s2" ∅
               Demo.org_example 0%nat Demo.bare_session Demo.fresh
  = Ran Demo.bare_session
        (Return (TextContent Demo.cached),
         mkWorld 3 [SubmitCall "777" "env-key" "example.com" (Some (JS.Num 300))]).
Proof. vm_compute. reflexivity. Qed.

Example new_connection_view :
  session_view (handleSse Cases.env_full "s9" Cases.connect_headers no_sessions) "s9"
  = (true, true, Some "connect-key",
     Some (mkTimeoutConfig None (Some "250") None), Some "123").
Proof. vm_compute. reflexivity. Qed.

Example stdio_flag_wins :
  useHttpMode ["--http"; "--stdio"] = false
  /\ useHttpMode ["--server"] = true
  /\ useHttpMode [] = false.
Proof. by vm_compute. Qed.

Lemma infinite_budget_never_times_out_witness :
  timeoutMs_of Demo.env_key (Some (Cases.nines 309)) = JS.PosInf
  /\ (getDataHandler Demo.env_key Demo.slow_engine "example.com"
                     None (Some (Cases.nines 309)) None None None 5%nat Demo.fresh).1
     <> Throw (PollTimeout (JStr "42") JS.PosInf).
Proof.
  split; [vm_compute; reflexivity|].
  apply (infinite_budget_never_times_out
           Demo.env_key Demo.slow_engine "example.com"
           None (Some (Cases.nines 309)) None None None 5%nat Demo.fresh
           (JStr "42") JS.PosInf).
  vm_compute. reflexivity.
Defined.

Lemma infinite_budget_polls_without_end_witness :
  exists w',
    getDataHandler Demo.env_key Demo.slow_engine "example.com"
                   None (Some (Cases.nines 309)) None None None 5%nat Demo.fresh
    = (Pending, w')
    /\ poll_calls Demo.fresh w' = 5%nat
    /\ fetch_calls Demo.fresh w' = 0%nat.
Proof.
  apply (infinite_budget_polls_without_end
           Demo.env_key Demo.slow_engine "example.com"
           None (Some (Cases.nines 309)) None None None
           Demo.fresh (mkWorld 0 [SubmitCall "35173" "env-key" "example.com" None])
           "env-key" (JStr "42")).
  - vm_compute. reflexivity.
  - show_reaches.
  - intros n. by eexists _, _, _.
Defined.
